(** * The audio recording worker (audio_worker.py)

    A shallow embedding of [Recorder] and of [main]'s control loop, and the
    properties of the capture state machine and of the line protocol.

    The worker talks to three outside parties: the audio driver
    (sounddevice), the WAV encoder (scipy.io.wavfile) and the Python run time
    (json, int, str, repr, traceback).  What they answer is not decided by
    audio_worker.py, so it is an input of the model: the [Runtime] class for
    the pure functions, an [Env] record for the outcome of each fallible call
    made while one request is handled. *)

From Stdlib Require Import ZArith Lia SpecFloat.
From stdpp Require Import base option list strings.

Set Warnings "-register-all".
Open Scope string_scope.
Open Scope list_scope.
Open Scope Z_scope.

(** ** Python values *)

Module Py.

(** A value as [json.loads] builds it: [None], [bool], [int], [float] (an
    IEEE binary64, [NaN] and the infinities included), [str], [list], and
    [dict] as its items in insertion order (the keys of a dict are distinct,
    so the first match is the entry). *)
Inductive json : Type :=
| JNull
| JBool (b : bool)
| JInt (n : Z)
| JFloat (f : spec_float)
| JStr (s : string)
| JArr (items : list json)
| JObj (fields : list (string * json)).

(** An exception object: its class and [str(e)]. *)
Record exn : Type := Exn { exn_class : string; exn_msg : string }.

Definition RuntimeError (msg : string) : exn := Exn "RuntimeError" msg.
Definition ValueError (msg : string) : exn := Exn "ValueError" msg.
Definition AttributeError (msg : string) : exn := Exn "AttributeError" msg.

(** [d.get(key)] on the items of a dict: [None] when the key is absent. *)
Fixpoint lookup_field (key : string) (fields : list (string * json)) : json :=
  match fields with
  | [] => JNull
  | (k, v) :: rest => if String.eqb key k then v else lookup_field key rest
  end.

(** Truth value testing ([not x], [x or y], [if x:]). *)
Definition truthy (v : json) : bool :=
  match v with
  | JNull => false
  | JBool b => b
  | JInt n => negb (n =? 0)
  | JFloat (S754_zero _) => false
  | JFloat _ => true
  | JStr s => negb (String.eqb s "")
  | JArr items => match items with [] => false | _ => true end
  | JObj fields => match fields with [] => false | _ => true end
  end.

(** [x or default]. *)
Definition py_or (v default : json) : json := if truthy v then v else default.

(** [v == s] for a str literal [s]. *)
Definition eq_str (v : json) (s : string) : bool :=
  match v with
  | JStr s' => String.eqb s' s
  | _ => false
  end.

(** [int(f)] on a finite float: the integer part, rounded towards zero. *)
Definition trunc_finite (s : bool) (m : positive) (e : Z) : Z :=
  let magnitude :=
    match e with
    | Z0 => Zpos m
    | Zpos k => Z.shiftl (Zpos m) (Zpos k)
    | Zneg k => Z.shiftr (Zpos m) (Zpos k)
    end in
  if s then - magnitude else magnitude.

End Py.
Export Py.

(** ** The outside world *)

(** The functions of the Python run time and of NumPy the worker calls.
    [sample] is one float32 sample; [to_int16 x] is the element of
    [(audio * 32767).astype(np.int16)] computed from the sample [x]. *)
Class Runtime : Type := {
  strip : string -> string;
  json_loads : string -> option json;
  int_of_str : string -> option Z;
  int_error : json -> exn;
  str_of : json -> string;
  repr : json -> string;
  format_exc : exn -> string;
  sample : Type;
  to_int16 : sample -> Z
}.

(** The outcome of the fallible calls made while one request is handled:
    [None] when the call returns, [Some e] when it raises [e] (a subclass of
    [Exception]). *)
Record Env : Type := {
  import_start : option exn;   (* import numpy, sounddevice in start *)
  open_stream : option exn;    (* sd.InputStream(...) *)
  start_stream : option exn;   (* stream.start() *)
  abort_stream : option exn;   (* stream.abort(ignore_errors=True) *)
  close_stream : option exn;   (* stream.close(ignore_errors=True) *)
  import_stop : option exn;    (* import numpy, scipy.io.wavfile in stop *)
  write_wav : option exn       (* wavfile.write(...) *)
}.

(** Every call returns. *)
Definition calm : Env :=
  {| import_start := None; open_stream := None; start_stream := None;
     abort_stream := None; close_stream := None; import_stop := None;
     write_wav := None |}.

(** An input stream, as [sd.InputStream] was asked to open it (the sample
    format is always float32). *)
Record Stream : Type := {
  st_device : json;
  st_samplerate : Z;
  st_channels : Z
}.

(** What the worker does to the outside, in program order. *)
Inductive event : Type :=
| Log (text : string)
| Out (message : json)
| OpenStream (device : json) (samplerate channels : Z)
| StartStream (s : Stream)
| AbortStream (s : Stream)
| CloseStream (s : Stream)
| WriteWav (path : string) (rate : Z) (pcm : list (list Z)).

(** How a call ends: it returns a value or raises. *)
Inductive result (A : Type) : Type :=
| Ok (a : A)
| Raise (e : exn).
Arguments Ok {A} a.
Arguments Raise {A} e.

(** ** A run time for the examples

    Lines are written with apostrophes where JSON has double quotes;
    [json_text] puts the double quotes back.  [json_loads] reads the lines
    the examples send and nothing else; a sample stands as the integer it is
    cast to. *)

Fixpoint json_text (s : string) : string :=
  match s with
  | EmptyString => EmptyString
  | String a rest =>
      String (if Ascii.eqb a (Ascii.ascii_of_nat 39) then Ascii.ascii_of_nat 34 else a)
             (json_text rest)
  end.

Definition start_line : string := json_text "{'type': 'start', 'id': '7'}".
Definition stop_line : string :=
  json_text "{'type': 'stop', 'wav_path': 'out.wav', 'id': '1'}".
Definition shutdown_line : string := json_text "{'type': 'shutdown', 'id': '9'}".

Definition demo_loads (line : string) : option json :=
  if String.eqb line start_line then
    Some (JObj [("type", JStr "start"); ("id", JStr "7")])
  else if String.eqb line stop_line then
    Some (JObj [("type", JStr "stop"); ("wav_path", JStr "out.wav"); ("id", JStr "1")])
  else if String.eqb line shutdown_line then
    Some (JObj [("type", JStr "shutdown"); ("id", JStr "9")])
  else None.

Definition demo : Runtime :=
  {| strip := fun line => line;
     json_loads := demo_loads;
     int_of_str := fun _ => None;
     int_error := fun _ => Exn "TypeError" "int() argument must be a string or a real number";
     str_of := fun _ => "";
     repr := fun _ => "";
     format_exc := fun e => exn_class e +:+ ": " +:+ exn_msg e;
     sample := Z;
     to_int16 := fun x => x |}.


(** ** The Recorder *)

Section Worker.

Context {rt : Runtime}.

(** A block of frames as one callback invocation delivers it: an array of
    shape (frames, channels). *)
Definition block : Type := list (list sample).

Record Recorder : Type := {
  _recording : bool;
  _stream : option Stream;
  _chunks : list block;
  _sample_rate : option Z;
  _channels : option Z
}.

(** [Recorder.__init__] *)
Definition init : Recorder :=
  {| _recording := false; _stream := None; _chunks := [];
     _sample_rate := None; _channels := None |}.

(** A method body: it runs from a recorder state, leaves a state and the
    events it caused, and returns or raises.  What was assigned and done
    before a [raise] stays assigned and done. *)
Definition M (A : Type) : Type := Recorder -> Recorder * list event * result A.

Definition ret {A} (a : A) : M A := fun r => (r, [], Ok a).

Definition bind {A B} (m : M A) (k : A -> M B) : M B := fun r =>
  match m r with
  | (r1, ev1, Ok a) =>
      match k a r1 with
      | (r2, ev2, res) => (r2, ev1 ++ ev2, res)
      end
  | (r1, ev1, Raise e) => (r1, ev1, Raise e)
  end.

Definition raise {A} (e : exn) : M A := fun r => (r, [], Raise e).

(** [try: body  except Exception as e: handler e] *)
Definition try_except {A} (body : M A) (handler : exn -> M A) : M A := fun r =>
  match body r with
  | (r1, ev1, Ok a) => (r1, ev1, Ok a)
  | (r1, ev1, Raise e) =>
      match handler e r1 with
      | (r2, ev2, res) => (r2, ev1 ++ ev2, res)
      end
  end.

Definition read {A} (field : Recorder -> A) : M A := fun r => (r, [], Ok (field r)).
Definition emit (e : event) : M unit := fun r => (r, [e], Ok tt).

(** An outside call: the request is made, then it returns or raises. *)
Definition call (request : event) (outcome : option exn) : M unit := fun r =>
  (r, [request], match outcome with None => Ok tt | Some e => Raise e end).

(** An [import] statement has no effect the worker can see unless it fails. *)
Definition import (outcome : option exn) : M unit := fun r =>
  (r, [], match outcome with None => Ok tt | Some e => Raise e end).

Notation "x <- m ;; k" := (bind m (fun x => k))
  (at level 100, m at level 99, k at level 200, right associativity).
Notation "m ;;; k" := (bind m (fun _ => k))
  (at level 100, k at level 200, right associativity).

(** Assignments to the attributes of [self]. *)
Definition set_recording (b : bool) : M unit := fun r =>
  ({| _recording := b; _stream := _stream r; _chunks := _chunks r;
      _sample_rate := _sample_rate r; _channels := _channels r |}, [], Ok tt).
Definition set_stream (s : option Stream) : M unit := fun r =>
  ({| _recording := _recording r; _stream := s; _chunks := _chunks r;
      _sample_rate := _sample_rate r; _channels := _channels r |}, [], Ok tt).
Definition set_chunks (c : list block) : M unit := fun r =>
  ({| _recording := _recording r; _stream := _stream r; _chunks := c;
      _sample_rate := _sample_rate r; _channels := _channels r |}, [], Ok tt).
Definition set_sample_rate (n : option Z) : M unit := fun r =>
  ({| _recording := _recording r; _stream := _stream r; _chunks := _chunks r;
      _sample_rate := n; _channels := _channels r |}, [], Ok tt).
Definition set_channels (n : option Z) : M unit := fun r =>
  ({| _recording := _recording r; _stream := _stream r; _chunks := _chunks r;
      _sample_rate := _sample_rate r; _channels := n |}, [], Ok tt).

(** [_log] and [_write_json]: a line on stderr, a line on stdout.  Both
    streams are taken to accept every line: a run in which the write itself
    raises (a closed pipe, a string the stream's encoding refuses) is not a
    run of the model. *)
Definition _log (message : string) : M unit := emit (Log message).
Definition _write_json (message : json) : M unit := emit (Out message).

(** The callback [start] registers with the stream; the driver calls it with
    each block ([status] is [Some text] when a flag is set). *)
Definition callback (indata : block) (status : option string) : M unit :=
  match status with
  | Some text => _log ("[stt:audio-worker] Status: " +:+ text)
  | None => ret tt
  end ;;;
  recording <- read _recording ;;
  if recording then
    chunks <- read _chunks ;;
    set_chunks (chunks ++ [indata])
  else ret tt.

(** [Recorder.start] *)
Definition start (device : json) (sample_rate channels : Z) (env : Env) : M unit :=
  recording <- read _recording ;;
  if recording then raise (RuntimeError "Already recording") else
  import (import_start env) ;;;
  set_chunks [] ;;;
  set_sample_rate (Some sample_rate) ;;;
  set_channels (Some channels) ;;;
  set_recording true ;;;
  call (OpenStream device sample_rate channels) (open_stream env) ;;;
  let stream := {| st_device := device; st_samplerate := sample_rate;
                   st_channels := channels |} in
  call (StartStream stream) (start_stream env) ;;;
  set_stream (Some stream).

(** The teardown [stop] and [cancel] share:
    [if stream is not None: try: abort; close  except Exception: log]. *)
Definition teardown (stream : option Stream) (env : Env) : M unit :=
  match stream with
  | None => ret tt
  | Some s =>
      try_except
        (call (AbortStream s) (abort_stream env) ;;;
         call (CloseStream s) (close_stream env))
        (fun e => _log (format_exc e))
  end.

(** [self._sample_rate or 16000] *)
Definition rate_or_default (rate : option Z) : Z :=
  match rate with
  | Some n => if n =? 0 then 16000 else n
  | None => 16000
  end.

(** [Recorder.stop] *)
Definition stop (wav_path : string) (env : Env) : M Z :=
  recording <- read _recording ;;
  if negb recording then ret 0 else
  set_recording false ;;;
  stream <- read _stream ;;
  set_stream None ;;;
  chunks <- read _chunks ;;
  set_chunks [] ;;;
  teardown stream env ;;;
  match chunks with
  | [] => ret 0
  | _ =>
      import (import_stop env) ;;;
      let audio := concat chunks in
      let frames := Z.of_nat (length audio) in
      let audio_int16 := map (map to_int16) audio in
      rate <- read _sample_rate ;;
      call (WriteWav wav_path (rate_or_default rate) audio_int16) (write_wav env) ;;;
      ret frames
  end.

(** [Recorder.cancel] *)
Definition cancel (env : Env) : M unit :=
  set_recording false ;;;
  set_chunks [] ;;;
  stream <- read _stream ;;
  set_stream None ;;;
  teardown stream env.

(** [Recorder.shutdown] *)
Definition shutdown (env : Env) : M unit := cancel env.

(** ** The control loop *)

(** [type(v).__name__] *)
Definition type_name (v : json) : string :=
  match v with
  | JNull => "NoneType"
  | JBool _ => "bool"
  | JInt _ => "int"
  | JFloat _ => "float"
  | JStr _ => "str"
  | JArr _ => "list"
  | JObj _ => "dict"
  end.

(** [message.get(key)]: only a dict has the method. *)
Definition get (message : json) (key : string) : M json :=
  match message with
  | JObj fields => ret (lookup_field key fields)
  | _ => raise (AttributeError
                  ("'" +:+ type_name message +:+ "' object has no attribute 'get'"))
  end.

(** [int(v)]: a bool, an int, a finite float truncated, a str the run time
    can read as an integer; anything else raises. *)
Definition int (v : json) : M Z :=
  match v with
  | JBool b => ret (if b then 1 else 0)
  | JInt n => ret n
  | JFloat (S754_zero _) => ret 0
  | JFloat (S754_finite s m e) => ret (trunc_finite s m e)
  | JStr s =>
      match int_of_str s with
      | Some n => ret n
      | None => raise (int_error v)
      end
  | _ => raise (int_error v)
  end.

(** [str(v)] *)
Definition str (v : json) : string :=
  match v with
  | JStr s => s
  | _ => str_of v
  end.

(** How one turn of the [for] loop ends: [continue] (or falling off the end
    of the body), or [return code]. *)
Inductive control : Type :=
| Next
| Return (code : Z).

(** The body of the second [try] of the loop (lines 128 to 155). *)
Definition dispatch (message msg_type req_id : json) (env : Env) : M control :=
  if eq_str msg_type "shutdown" then
    shutdown env ;;;
    _write_json (JObj [("type", JStr "shutdown_ack")]) ;;;
    ret (Return 0)
  else if eq_str msg_type "start" then
    device <- get message "device" ;;
    rate_field <- get message "sample_rate" ;;
    sample_rate <- int (py_or rate_field (JInt 16000)) ;;
    channels_field <- get message "channels" ;;
    channels <- int (py_or channels_field (JInt 1)) ;;
    start device sample_rate channels env ;;;
    _write_json (JObj [("type", JStr "started"); ("id", req_id)]) ;;;
    ret Next
  else if eq_str msg_type "stop" then
    wav_path <- get message "wav_path" ;;
    if negb (truthy wav_path) then raise (ValueError "Missing wav_path") else
    frames <- stop (str wav_path) env ;;
    _write_json (JObj [("type", JStr "stopped"); ("id", req_id);
                       ("wav_path", wav_path); ("frames", JInt frames)]) ;;;
    ret Next
  else if eq_str msg_type "cancel" then
    cancel env ;;;
    _write_json (JObj [("type", JStr "canceled"); ("id", req_id)]) ;;;
    ret Next
  else
    _log ("[stt:audio-worker] Unknown message type: " +:+ repr msg_type) ;;;
    ret Next.

(** The [except Exception as e] of that [try]. *)
Definition report (req_id : json) (e : exn) : M control :=
  _log (format_exc e) ;;;
  _write_json (JObj [("type", JStr "error"); ("id", req_id);
                     ("error", JStr (exn_msg e))]) ;;;
  ret Next.

(** One turn of [for line in sys.stdin].  The two [message.get] calls stand
    outside both [try] blocks: what they raise leaves [main]. *)
Definition loop_body (line : string) (env : Env) : M control :=
  let line := strip line in
  if String.eqb line "" then ret Next else
  match json_loads line with
  | None =>
      _log ("[stt:audio-worker] Non-JSON input ignored: " +:+ repr (JStr line)) ;;;
      ret Next
  | Some message =>
      msg_type <- get message "type" ;;
      req_id <- get message "id" ;;
      try_except (dispatch message msg_type req_id env) (report req_id)
  end.

(** What reaches the worker, in order: a line on stdin (with the outcome of
    the outside calls made while it is handled), or a block of frames the
    driver delivers between two requests. *)
Inductive input : Type :=
| Line (text : string) (env : Env)
| Block (indata : block) (status : option string).

(** The [for] loop: [return 0] at the end of the input. *)
Fixpoint serve (inputs : list input) : M Z :=
  match inputs with
  | [] => ret 0
  | Line text env :: rest =>
      c <- loop_body text env ;;
      match c with
      | Next => serve rest
      | Return code => ret code
      end
  | Block indata status :: rest =>
      callback indata status ;;;
      serve rest
  end.

(** [main]: the exit code, or the exception that leaves it. *)
Definition main (inputs : list input) : Recorder * list event * result Z :=
  (_write_json (JObj [("type", JStr "ready")]) ;;; serve inputs) init.

(** The lines written to stdout, in order. *)
Fixpoint responses (trace : list event) : list json :=
  match trace with
  | [] => []
  | Out message :: rest => message :: responses rest
  | _ :: rest => responses rest
  end.

(** The blocks delivered one after the other. *)
Fixpoint deliver (blocks : list (block * option string)) : M unit :=
  match blocks with
  | [] => ret tt
  | (indata, status) :: rest => callback indata status ;;; deliver rest
  end.

(** The number of frames of a block: [indata.shape[0]]. *)
Definition frames_of (indata : block) : Z := Z.of_nat (length indata).

Definition total_frames (blocks : list block) : Z :=
  foldr Z.add 0 (map frames_of blocks).

(** Unfolds the method bodies down to the state they leave. *)
Ltac run :=
  cbv [start stop cancel shutdown callback teardown deliver dispatch report
       loop_body get int _log _write_json bind ret raise try_except read emit
       call import set_recording set_stream set_chunks set_sample_rate
       set_channels];
  cbn [_recording _stream _chunks _sample_rate _channels negb app].

(** The state with another buffer. *)
Definition with_chunks (r : Recorder) (c : list block) : Recorder :=
  {| _recording := _recording r; _stream := _stream r; _chunks := c;
     _sample_rate := _sample_rate r; _channels := _channels r |}.

(** The state a successful [start] leaves. *)
Definition started (device : json) (sample_rate channels : Z) : Recorder :=
  {| _recording := true;
     _stream := Some {| st_device := device; st_samplerate := sample_rate;
                        st_channels := channels |};
     _chunks := [];
     _sample_rate := Some sample_rate;
     _channels := Some channels |}.

(** The environment [env] with other outcomes for the two teardown calls. *)
Definition with_teardown (env : Env) (abort close : option exn) : Env :=
  {| import_start := import_start env; open_stream := open_stream env;
     start_stream := start_stream env; abort_stream := abort; close_stream := close;
     import_stop := import_stop env; write_wav := write_wav env |}.

(** The environment in which [sd.InputStream] raises [e] and every other call
    returns. *)
Definition open_fails (e : exn) : Env :=
  {| import_start := None; open_stream := Some e; start_stream := None;
     abort_stream := None; close_stream := None; import_stop := None;
     write_wav := None |}.

(** The pairing the data model asks for: the session is active exactly when
    it holds a stream handle and its sample rate and channel count are set. *)
Definition paired (r : Recorder) : Prop :=
  _recording r = true <->
  (is_Some (_stream r) /\ is_Some (_sample_rate r) /\ is_Some (_channels r)).

(** What always holds of the three: a stream handle is held by an active
    session only, and an active session has its rate and channel count. *)
Definition attached (r : Recorder) : Prop :=
  (is_Some (_stream r) -> _recording r = true) /\
  (_recording r = true -> is_Some (_sample_rate r) /\ is_Some (_channels r)).

(** The [id] a response carries. *)
Definition id_of (response : json) : json :=
  match response with
  | JObj fields => lookup_field "id" fields
  | _ => JNull
  end.

(** One request handled: the dispatch inside its [try]. *)
Definition answer (message msg_type req_id : json) (env : Env) : M control :=
  try_except (dispatch message msg_type req_id env) (report req_id).

(** A trace of log lines and teardown requests only: nothing written to
    stdout or to a file, no stream opened. *)
Definition quiet (ev : list event) : Prop :=
  forall e, In e ev ->
    match e with
    | Log _ | AbortStream _ | CloseStream _ => True
    | _ => False
    end.

(** Unfolds a method body and leaves its [teardown] call folded. *)
Ltac run_to_teardown :=
  cbv [start stop cancel shutdown callback deliver dispatch report
       loop_body get int _log _write_json bind ret raise try_except read emit
       call import set_recording set_stream set_chunks set_sample_rate
       set_channels];
  cbn [_recording _stream _chunks _sample_rate _channels negb app].

(** ** The two threads, statement by statement

    The control loop runs [start], [stop] and [cancel] on the main thread;
    the driver runs the callback on a thread of its own, at any time.  No
    statement of audio_worker.py takes a lock, so the statements of the
    callback interleave with those of the method the main thread is in.
    Here each method is a program counter over its source lines, with the
    locals that are live at each line, and [self._chunks] is a reference to
    a list object in a store: [chunks = self._chunks] copies the reference,
    [self._chunks = []] makes a new object, [append] changes the object in
    place. *)

Abbreviation loc := nat (only parsing).

(** The attributes of [self], and the list objects made so far (none is ever
    freed in the model). *)
Record Shared : Type := {
  m_recording : bool;
  m_stream : option Stream;
  m_chunks : loc;
  m_sample_rate : option Z;
  m_channels : option Z;
  m_heap : list (list block)
}.

(** The list object at [l] ([[]] for a reference to nothing, which no run
    from [boot] makes). *)
Definition deref (heap : list (list block)) (l : loc) : list block :=
  default [] (heap !! l).

(** The recorder the main thread sees when it reads all of [self] at once. *)
Definition view (m : Shared) : Recorder :=
  {| _recording := m_recording m; _stream := m_stream m;
     _chunks := deref (m_heap m) (m_chunks m);
     _sample_rate := m_sample_rate m; _channels := m_channels m |}.

Definition store_recording (b : bool) (m : Shared) : Shared :=
  {| m_recording := b; m_stream := m_stream m; m_chunks := m_chunks m;
     m_sample_rate := m_sample_rate m; m_channels := m_channels m;
     m_heap := m_heap m |}.
Definition store_stream (s : option Stream) (m : Shared) : Shared :=
  {| m_recording := m_recording m; m_stream := s; m_chunks := m_chunks m;
     m_sample_rate := m_sample_rate m; m_channels := m_channels m;
     m_heap := m_heap m |}.
Definition store_sample_rate (n : option Z) (m : Shared) : Shared :=
  {| m_recording := m_recording m; m_stream := m_stream m; m_chunks := m_chunks m;
     m_sample_rate := n; m_channels := m_channels m; m_heap := m_heap m |}.
Definition store_channels (n : option Z) (m : Shared) : Shared :=
  {| m_recording := m_recording m; m_stream := m_stream m; m_chunks := m_chunks m;
     m_sample_rate := m_sample_rate m; m_channels := n; m_heap := m_heap m |}.

(** [self._chunks = []]: a new, empty list object. *)
Definition store_new_chunks (m : Shared) : Shared :=
  {| m_recording := m_recording m; m_stream := m_stream m;
     m_chunks := length (m_heap m);
     m_sample_rate := m_sample_rate m; m_channels := m_channels m;
     m_heap := m_heap m ++ [[]] |}.

(** [target.append(indata)] on the list object [target]. *)
Definition append_to (target : loc) (indata : block) (m : Shared) : Shared :=
  {| m_recording := m_recording m; m_stream := m_stream m; m_chunks := m_chunks m;
     m_sample_rate := m_sample_rate m; m_channels := m_channels m;
     m_heap := alter (fun c => c ++ [indata]) target (m_heap m) |}.

(** How a method ends. *)
Inductive outcome : Type :=
| Returned (value : option Z)
| Raised (e : exn).

(** [Recorder.stop], by source line, with the locals live at the line. *)
Inductive stop_pc : Type :=
| L63                                               (* if not self._recording: return 0 *)
| L66                                               (* self._recording = False *)
| L67                                               (* stream = self._stream *)
| L68 (stream : option Stream)                      (* self._stream = None *)
| L69 (stream : option Stream)                      (* chunks = self._chunks *)
| L70 (stream : option Stream) (chunks : loc)       (* self._chunks = [] *)
| L72 (stream : option Stream) (chunks : loc)       (* if stream is not None: *)
| L74 (stream : Stream) (chunks : loc)              (* stream.abort(ignore_errors=True) *)
| L75 (stream : Stream) (chunks : loc)              (* stream.close(ignore_errors=True) *)
| L77 (e : exn) (chunks : loc)                      (* _log(traceback.format_exc()) *)
| L79 (chunks : loc)                                (* if not chunks: return 0 *)
| L82 (chunks : loc)                                (* import numpy, scipy.io.wavfile *)
| L85 (chunks : loc)                                (* audio = np.concatenate(chunks, axis=0) *)
| L86 (audio : block)                               (* frames = int(audio.shape[0]) *)
| L88 (audio : block) (frames : Z)                  (* audio_int16 = (audio * 32767).astype(np.int16) *)
| L89 (audio_int16 : list (list Z)) (frames : Z)    (* wavfile.write(...) *)
| L90 (frames : Z).                                 (* return frames *)

(** [Recorder.cancel] *)
Inductive cancel_pc : Type :=
| L93                                               (* self._recording = False *)
| L94                                               (* self._chunks = [] *)
| L96                                               (* stream = self._stream *)
| L97 (stream : option Stream)                      (* self._stream = None *)
| L98 (stream : option Stream)                      (* if stream is not None: *)
| L100 (stream : Stream)                            (* stream.abort(ignore_errors=True) *)
| L101 (stream : Stream)                            (* stream.close(ignore_errors=True) *)
| L103 (e : exn).                                   (* _log(traceback.format_exc()) *)

(** [Recorder.start] *)
Inductive start_pc : Type :=
| L35                                               (* if self._recording: raise *)
| L38                                               (* import numpy, sounddevice *)
| L41                                               (* self._chunks = [] *)
| L42                                               (* self._sample_rate = sample_rate *)
| L43                                               (* self._channels = channels *)
| L44                                               (* self._recording = True *)
| L52                                               (* stream = sd.InputStream(...) *)
| L59 (stream : Stream)                             (* stream.start() *)
| L60 (stream : Stream).                            (* self._stream = stream *)

(** The callback.  Line 50 is two steps: [self._chunks] is read, then the
    object read is appended to. *)
Inductive callback_pc : Type :=
| L47 (indata : block) (status : option string)     (* if status: _log(...) *)
| L49 (indata : block)                              (* if self._recording: *)
| L50 (indata : block)                              (* self._chunks        (read) *)
| L50_append (indata : block) (target : loc).       (* .append(indata.copy()) *)

(** What the main thread is doing. *)
Inductive main_thread : Type :=
| Idle
| InStart (pc : start_pc) (device : json) (sample_rate channels : Z) (env : Env)
| InStop (pc : stop_pc) (wav_path : string) (env : Env)
| InCancel (pc : cancel_pc) (env : Env).

(** Both threads, the memory they share, the outside events so far and the
    outcomes of the methods that ended, both oldest first. *)
Record Config : Type := {
  mem : Shared;
  main_at : main_thread;
  audio_at : option callback_pc;
  trace : list event;
  outcomes : list outcome
}.

(** The worker after [Recorder()]: [self._chunks] is the one list object. *)
Definition boot : Config :=
  {| mem := {| m_recording := false; m_stream := None; m_chunks := 0%nat;
               m_sample_rate := None; m_channels := None; m_heap := [[]] |};
     main_at := Idle; audio_at := None; trace := []; outcomes := [] |}.

(** One statement of a method: the memory after it, the events it causes,
    and the next line or the method's end. *)
Definition stop_step (wav_path : string) (env : Env) (pc : stop_pc) (m : Shared)
    : Shared * list event * (stop_pc + outcome) :=
  match pc with
  | L63 => if negb (m_recording m) then (m, [], inr (Returned (Some 0)))
           else (m, [], inl L66)
  | L66 => (store_recording false m, [], inl L67)
  | L67 => (m, [], inl (L68 (m_stream m)))
  | L68 stream => (store_stream None m, [], inl (L69 stream))
  | L69 stream => (m, [], inl (L70 stream (m_chunks m)))
  | L70 stream chunks => (store_new_chunks m, [], inl (L72 stream chunks))
  | L72 stream chunks =>
      match stream with
      | Some s => (m, [], inl (L74 s chunks))
      | None => (m, [], inl (L79 chunks))
      end
  | L74 s chunks =>
      (m, [AbortStream s],
       match abort_stream env with
       | None => inl (L75 s chunks)
       | Some e => inl (L77 e chunks)
       end)
  | L75 s chunks =>
      (m, [CloseStream s],
       match close_stream env with
       | None => inl (L79 chunks)
       | Some e => inl (L77 e chunks)
       end)
  | L77 e chunks => (m, [Log (format_exc e)], inl (L79 chunks))
  | L79 chunks =>
      match deref (m_heap m) chunks with
      | [] => (m, [], inr (Returned (Some 0)))
      | _ => (m, [], inl (L82 chunks))
      end
  | L82 chunks =>
      match import_stop env with
      | None => (m, [], inl (L85 chunks))
      | Some e => (m, [], inr (Raised e))
      end
  | L85 chunks => (m, [], inl (L86 (concat (deref (m_heap m) chunks))))
  | L86 audio => (m, [], inl (L88 audio (Z.of_nat (length audio))))
  | L88 audio frames => (m, [], inl (L89 (map (map to_int16) audio) frames))
  | L89 audio_int16 frames =>
      (m, [WriteWav wav_path (rate_or_default (m_sample_rate m)) audio_int16],
       match write_wav env with
       | None => inl (L90 frames)
       | Some e => inr (Raised e)
       end)
  | L90 frames => (m, [], inr (Returned (Some frames)))
  end.

Definition cancel_step (env : Env) (pc : cancel_pc) (m : Shared)
    : Shared * list event * (cancel_pc + outcome) :=
  match pc with
  | L93 => (store_recording false m, [], inl L94)
  | L94 => (store_new_chunks m, [], inl L96)
  | L96 => (m, [], inl (L97 (m_stream m)))
  | L97 stream => (store_stream None m, [], inl (L98 stream))
  | L98 stream =>
      match stream with
      | Some s => (m, [], inl (L100 s))
      | None => (m, [], inr (Returned None))
      end
  | L100 s =>
      (m, [AbortStream s],
       match abort_stream env with
       | None => inl (L101 s)
       | Some e => inl (L103 e)
       end)
  | L101 s =>
      (m, [CloseStream s],
       match close_stream env with
       | None => inr (Returned None)
       | Some e => inl (L103 e)
       end)
  | L103 e => (m, [Log (format_exc e)], inr (Returned None))
  end.

Definition start_step (device : json) (sample_rate channels : Z) (env : Env)
    (pc : start_pc) (m : Shared) : Shared * list event * (start_pc + outcome) :=
  match pc with
  | L35 => if m_recording m then (m, [], inr (Raised (RuntimeError "Already recording")))
           else (m, [], inl L38)
  | L38 =>
      match import_start env with
      | None => (m, [], inl L41)
      | Some e => (m, [], inr (Raised e))
      end
  | L41 => (store_new_chunks m, [], inl L42)
  | L42 => (store_sample_rate (Some sample_rate) m, [], inl L43)
  | L43 => (store_channels (Some channels) m, [], inl L44)
  | L44 => (store_recording true m, [], inl L52)
  | L52 =>
      (m, [OpenStream device sample_rate channels],
       match open_stream env with
       | None => inl (L59 {| st_device := device; st_samplerate := sample_rate;
                             st_channels := channels |})
       | Some e => inr (Raised e)
       end)
  | L59 stream =>
      (m, [StartStream stream],
       match start_stream env with
       | None => inl (L60 stream)
       | Some e => inr (Raised e)
       end)
  | L60 stream => (store_stream (Some stream) m, [], inr (Returned None))
  end.

(** One statement of the callback: [None] when it returns. *)
Definition callback_step (pc : callback_pc) (m : Shared)
    : Shared * list event * option callback_pc :=
  match pc with
  | L47 indata status =>
      (m,
       match status with
       | Some text => [Log ("[stt:audio-worker] Status: " +:+ text)]
       | None => []
       end,
       Some (L49 indata))
  | L49 indata => (m, [], if m_recording m then Some (L50 indata) else None)
  | L50 indata => (m, [], Some (L50_append indata (m_chunks m)))
  | L50_append indata target => (append_to target indata m, [], None)
  end.

(** What the control loop asks of the recorder. *)
Inductive request : Type :=
| Start (device : json) (sample_rate channels : Z) (env : Env)
| Stop (wav_path : string) (env : Env)
| Cancel (env : Env).

(** What can happen next: the main thread enters a method or runs its next
    statement; the driver invokes the callback or the callback runs its next
    statement. *)
Inductive move : Type :=
| Call (q : request)
| Ctl
| Fire (indata : block) (status : option string)
| Cb.

Definition enter (q : request) : main_thread :=
  match q with
  | Start device sample_rate channels env => InStart L35 device sample_rate channels env
  | Stop wav_path env => InStop L63 wav_path env
  | Cancel env => InCancel L93 env
  end.

(** The next statement of the main thread (nothing when it is idle). *)
Definition ctl_step (c : Config) : Config :=
  match main_at c with
  | Idle => c
  | InStart pc device sample_rate channels env =>
      match start_step device sample_rate channels env pc (mem c) with
      | (m, ev, inl pc') =>
          {| mem := m; main_at := InStart pc' device sample_rate channels env;
             audio_at := audio_at c; trace := trace c ++ ev; outcomes := outcomes c |}
      | (m, ev, inr out) =>
          {| mem := m; main_at := Idle; audio_at := audio_at c;
             trace := trace c ++ ev; outcomes := outcomes c ++ [out] |}
      end
  | InStop pc wav_path env =>
      match stop_step wav_path env pc (mem c) with
      | (m, ev, inl pc') =>
          {| mem := m; main_at := InStop pc' wav_path env;
             audio_at := audio_at c; trace := trace c ++ ev; outcomes := outcomes c |}
      | (m, ev, inr out) =>
          {| mem := m; main_at := Idle; audio_at := audio_at c;
             trace := trace c ++ ev; outcomes := outcomes c ++ [out] |}
      end
  | InCancel pc env =>
      match cancel_step env pc (mem c) with
      | (m, ev, inl pc') =>
          {| mem := m; main_at := InCancel pc' env;
             audio_at := audio_at c; trace := trace c ++ ev; outcomes := outcomes c |}
      | (m, ev, inr out) =>
          {| mem := m; main_at := Idle; audio_at := audio_at c;
             trace := trace c ++ ev; outcomes := outcomes c ++ [out] |}
      end
  end.

(** One move; [None] when it cannot be made (a call while a method runs, a
    statement of a thread that has none to run, a callback invoked while one
    is running: the driver has one audio thread). *)
Definition step (mv : move) (c : Config) : option Config :=
  match mv with
  | Call q =>
      match main_at c with
      | Idle => Some {| mem := mem c; main_at := enter q; audio_at := audio_at c;
                        trace := trace c; outcomes := outcomes c |}
      | _ => None
      end
  | Ctl =>
      match main_at c with
      | Idle => None
      | _ => Some (ctl_step c)
      end
  | Fire indata status =>
      match audio_at c with
      | None => Some {| mem := mem c; main_at := main_at c;
                        audio_at := Some (L47 indata status);
                        trace := trace c; outcomes := outcomes c |}
      | Some _ => None
      end
  | Cb =>
      match audio_at c with
      | None => None
      | Some pc =>
          match callback_step pc (mem c) with
          | (m, ev, pc') =>
              Some {| mem := m; main_at := main_at c; audio_at := pc';
                      trace := trace c ++ ev; outcomes := outcomes c |}
          end
      end
  end.

(** A schedule, move by move. *)
Fixpoint exec (schedule : list move) (c : Config) : option Config :=
  match schedule with
  | [] => Some c
  | mv :: rest =>
      match step mv c with
      | Some c' => exec rest c'
      | None => None
      end
  end.

(** [n] statements of the main thread, the audio thread standing still. *)
Fixpoint run_ctl (n : nat) (c : Config) : Config :=
  match n with
  | O => c
  | S n' => run_ctl n' (ctl_step c)
  end.

(** The blocks held by all list objects: it grows by one with each append
    and with nothing else. *)
Definition held (heap : list (list block)) : nat :=
  foldr Nat.add 0%nat (map (fun chunks : list block => length chunks) heap).

Arguments held : simpl never.

Definition blocks_held (c : Config) : nat := held (m_heap (mem c)).

(** The callback has read the flag as set and has not appended yet. *)
Definition append_pending (c : Config) : nat :=
  match audio_at c with
  | Some (L50 _) | Some (L50_append _ _) => 1%nat
  | _ => 0%nat
  end.

(** The main thread is not in [start], and the schedule has no call of it. *)
Definition not_starting (c : Config) : Prop :=
  match main_at c with
  | InStart _ _ _ _ _ => False
  | _ => True
  end.

Definition calls_no_start (schedule : list move) : Prop :=
  forall device sample_rate channels env,
    ~ In (Call (Start device sample_rate channels env)) schedule.

(** How a method of the recorder ended, as the main thread records it. *)
Definition outcome_of {A} (value : A -> option Z) (res : result A) : outcome :=
  match res with
  | Ok a => Returned (value a)
  | Raise e => Raised e
  end.

(** [self._chunks] refers to a list object. *)
Definition chunks_bound (m : Shared) : Prop := (m_chunks m < length (m_heap m))%nat.

(** The order of effects in which abort is requested before the buffer is
    taken: along a run of the main thread from [c0], whenever
    [self._chunks] is no longer the list it was, abort has been requested. *)
Definition teardown_before_take (c0 : Config) : Prop :=
  forall n,
    m_chunks (mem (run_ctl n c0)) <> m_chunks (mem c0) ->
    exists s, In (AbortStream s) (trace (run_ctl n c0)).

(** Appends shut out from [c] on: whatever the two threads do next, short
    of a new [start], no list object gets a block. *)
Definition appends_excluded (c : Config) : Prop :=
  forall schedule c',
    calls_no_start schedule ->
    exec schedule c = Some c' ->
    blocks_held c' = blocks_held c.

(** * Properties of the Recorder and of the control loop *)

Lemma start_returns device sample_rate channels env r r1 ev :
  start device sample_rate channels env r = (r1, ev, Ok tt) ->
  _recording r = false /\ r1 = started device sample_rate channels.
Proof.
  run. destruct (_recording r); [discriminate |].
  destruct (import_start env), (open_stream env), (start_stream env);
    cbn; intros E; inversion E; auto.
Qed.

Lemma callback_recording indata status r :
  _recording r = true ->
  exists ev, callback indata status r = (with_chunks r (_chunks r ++ [indata]), ev, Ok tt).
Proof.
  intros Hrec. run. destruct status; cbn; rewrite Hrec; cbn; eauto.
Qed.

Lemma deliver_recording blocks : forall r,
  _recording r = true ->
  exists ev, deliver blocks r = (with_chunks r (_chunks r ++ map fst blocks), ev, Ok tt).
Proof.
  induction blocks as [| [indata status] rest IH]; intros r Hrec.
  - exists []. cbn. unfold ret, with_chunks. rewrite app_nil_r. destruct r; reflexivity.
  - destruct (callback_recording indata status r Hrec) as [ev1 E1].
    destruct (IH (with_chunks r (_chunks r ++ [indata])) Hrec) as [ev2 E2].
    exists (ev1 ++ ev2). cbn [deliver]. unfold bind at 1. rewrite E1, E2.
    cbn. unfold with_chunks; cbn. by rewrite <- app_assoc.
Qed.

Lemma length_concat_frames (chunks : list block) :
  Z.of_nat (length (concat chunks)) = total_frames chunks.
Proof.
  unfold total_frames, frames_of.
  induction chunks as [| c rest IH]; cbn; [reflexivity |].
  rewrite length_app, Nat2Z.inj_add, IH. reflexivity.
Qed.

Lemma eqb_nonempty (s : string) : s <> "" -> String.eqb s "" = false.
Proof. intros H. destruct (String.eqb_spec s ""); congruence. Qed.

(** The teardown returns whatever the driver does; it leaves the recorder
    as it was and writes nothing to stdout or to a file. *)
Lemma teardown_returns stream env r :
  exists ev, teardown stream env r = (r, ev, Ok tt) /\ quiet ev.
Proof.
  unfold quiet. run. destruct stream as [s |]; cbn.
  - destruct (abort_stream env), (close_stream env); cbn;
      eexists; (split; [reflexivity |]); cbn; intuition (subst; exact I).
  - exists []. split; [reflexivity |]. cbn. tauto.
Qed.

Lemma quiet_responses ev : quiet ev -> responses ev = [].
Proof.
  induction ev as [| e ev IH]; intros Hq; [reflexivity |].
  assert (He := Hq e (or_introl eq_refl)).
  assert (Hq' : quiet ev) by (intros e' Hin; apply Hq; right; exact Hin).
  destruct e; cbn; try contradiction; auto.
Qed.

Lemma responses_app ev1 ev2 : responses (ev1 ++ ev2) = responses ev1 ++ responses ev2.
Proof.
  induction ev1 as [| e ev1 IH]; [reflexivity |].
  destruct e; cbn; rewrite ?IH; reflexivity.
Qed.

(** What [stop] does on a recording session whose buffer holds at least one
    block, when the encoder's import and write return. *)
Lemma stop_recording_nonempty wav_path env r :
  _recording r = true ->
  _chunks r <> [] ->
  import_stop env = None ->
  write_wav env = None ->
  exists ev,
    stop wav_path env r =
      ({| _recording := false; _stream := None; _chunks := [];
          _sample_rate := _sample_rate r; _channels := _channels r |},
       ev ++ [WriteWav wav_path (rate_or_default (_sample_rate r))
                (map (map to_int16) (concat (_chunks r)))],
       Ok (total_frames (_chunks r)))
    /\ quiet ev.
Proof.
  intros Hrec Hne Himp Hw. run_to_teardown. rewrite Hrec. cbn.
  destruct (_chunks r) as [| c cs] eqn:Hc; [congruence |].
  match goal with |- context [teardown ?s env ?r'] =>
    destruct (teardown_returns s env r') as (ev & -> & Hq) end.
  rewrite Himp, Hw. rewrite <- length_concat_frames.
  exists ev. split; [reflexivity | exact Hq].
Qed.

(** The session as the main thread sees it when no delivery overlaps
    [stop]: a [start] that returns, one or more blocks whose deliveries have
    all returned, then a [stop] request with a non-empty [wav_path] (the
    encoder's import and write return).  [Recorder.stop] returns the sum of
    the frame counts of the blocks, the file written holds those blocks in
    arrival order, and the one response to the request is [stopped] with
    that sum as its [frames]. *)
Theorem stop_counts_delivered_frames
    (r0 : Recorder) (device : json) (sample_rate channels : Z) (env0 : Env)
    (r1 : Recorder) (ev1 : list event)
    (blocks : list (block * option string))
    (line wav_path : string) (fields : list (string * json)) (env : Env) :
  start device sample_rate channels env0 r0 = (r1, ev1, Ok tt) ->
  blocks <> [] ->
  strip line <> "" ->
  json_loads (strip line) = Some (JObj fields) ->
  lookup_field "type" fields = JStr "stop" ->
  lookup_field "wav_path" fields = JStr wav_path ->
  wav_path <> "" ->
  import_stop env = None ->
  write_wav env = None ->
  let r2 := (deliver blocks r1).1.1 in
  let total := total_frames (map fst blocks) in
  let pcm := map (map to_int16) (concat (map fst blocks)) in
  (exists r3 ev,
     stop wav_path env r2 = (r3, ev, Ok total) /\
     last ev = Some (WriteWav wav_path (rate_or_default (Some sample_rate)) pcm)) /\
  (exists r3 ev,
     loop_body line env r2 = (r3, ev, Ok Next) /\
     responses ev =
       [JObj [("type", JStr "stopped"); ("id", lookup_field "id" fields);
              ("wav_path", JStr wav_path); ("frames", JInt total)]]).
Proof.
  intros Hstart Hblocks Hline Hjson Htype Hpath Hne Himp Hw r2 total pcm.
  apply start_returns in Hstart as [_ ->].
  destruct (deliver_recording blocks (started device sample_rate channels) eq_refl)
    as [ev2 Hdel].
  assert (Hr2 : r2 = with_chunks (started device sample_rate channels) (map fst blocks))
    by (subst r2; rewrite Hdel; reflexivity).
  assert (Hchunks : _chunks r2 <> []).
  { rewrite Hr2. cbn. destruct blocks; [congruence | discriminate]. }
  destruct (stop_recording_nonempty wav_path env r2) as (ev & Hstop & Hq);
    [by rewrite Hr2 | exact Hchunks | exact Himp | exact Hw |].
  assert (Hvals : total_frames (_chunks r2) = total /\
                  rate_or_default (_sample_rate r2) = rate_or_default (Some sample_rate) /\
                  map (map to_int16) (concat (_chunks r2)) = pcm)
    by (rewrite Hr2; auto).
  destruct Hvals as (Ht & Hrate & Hpcm). rewrite Ht, Hrate, Hpcm in Hstop.
  split.
  - eexists _, _. split; [exact Hstop |]. apply last_snoc.
  - unfold loop_body. rewrite (eqb_nonempty _ Hline), Hjson.
    unfold get at 1 2. unfold bind at 1 2. cbn [ret].
    unfold try_except, dispatch. rewrite Htype. cbn [eq_str String.eqb Ascii.eqb Bool.eqb].
    unfold get, bind at 1. cbn [ret]. rewrite Hpath. cbn [truthy str].
    rewrite (eqb_nonempty _ Hne). cbn [negb].
    unfold bind at 1. rewrite Hstop.
    eexists _, _. split; [reflexivity |].
    cbn. rewrite !responses_app, (quiet_responses _ Hq). reflexivity.
Qed.

(** A step that only computes a value runs its continuation in the same
    state. *)
Lemma bind_ret {A B} (a : A) (k : A -> M B) r : bind (ret a) k r = k a r.
Proof. unfold bind, ret. by destruct (k a r) as [[r' ev] res]. Qed.

Lemma bind_read {A B} (field : Recorder -> A) (k : A -> M B) r :
  bind (read field) k r = k (field r) r.
Proof. unfold bind, read. by destruct (k (field r) r) as [[r' ev] res]. Qed.

Lemma bind_pure {A B} (m : M A) (k : A -> M B) r res :
  m r = (r, [], res) ->
  bind m k r = match res with Ok a => k a r | Raise e => (r, [], Raise e) end.
Proof.
  intros H. unfold bind. rewrite H. destruct res as [a | e]; [| reflexivity].
  by destruct (k a r) as [[r' ev] res'].
Qed.

(** A line that parses to a dict reaches the dispatch with its [type] and
    [id] fields. *)
Lemma loop_body_parsed line fields env r :
  strip line <> "" ->
  json_loads (strip line) = Some (JObj fields) ->
  loop_body line env r =
    answer (JObj fields) (lookup_field "type" fields) (lookup_field "id" fields) env r.
Proof.
  intros Hline Hjson. unfold loop_body.
  rewrite (eqb_nonempty _ Hline), Hjson.
  unfold get. by rewrite !bind_ret.
Qed.

Lemma stop_inactive wav_path env r :
  _recording r = false -> stop wav_path env r = (r, [], Ok 0).
Proof. intros H. run. rewrite H. reflexivity. Qed.

Lemma cancel_returns env r :
  exists ev,
    cancel env r =
      ({| _recording := false; _stream := None; _chunks := [];
          _sample_rate := _sample_rate r; _channels := _channels r |}, ev, Ok tt)
    /\ quiet ev.
Proof.
  run_to_teardown.
  match goal with |- context [teardown ?s env ?r'] =>
    destruct (teardown_returns s env r') as (ev & -> & Hq) end.
  exists ev. split; [reflexivity | exact Hq].
Qed.

Lemma stop_leaves_inactive wav_path env r : _recording (stop wav_path env r).1.1 = false.
Proof.
  run_to_teardown. destruct (_recording r) eqn:Hrec; cbn; [| exact Hrec].
  match goal with |- context [teardown ?s env ?r'] =>
    destruct (teardown_returns s env r') as (ev & -> & Hq) end.
  destruct (_chunks r); [reflexivity |].
  destruct (import_stop env); [reflexivity |].
  destruct (write_wav env); reflexivity.
Qed.

(** C6. [stop] on an inactive session returns 0, does nothing to the outside
    (no file is written) and leaves the session as it was; the request is
    answered [stopped] with [frames] 0, not [error].  The session is
    inactive before any [start], after a [stop] and after a [cancel], so a
    [stop] that follows one of them returns 0. *)
Theorem stop_when_inactive
    (r r0 : Recorder) (wav_path path0 : string) (env env0 : Env)
    (fields : list (string * json)) (req_id : json) :
  _recording r = false ->
  lookup_field "wav_path" fields = JStr wav_path ->
  wav_path <> "" ->
  stop wav_path env r = (r, [], Ok 0) /\
  dispatch (JObj fields) (JStr "stop") req_id env r =
    (r, [Out (JObj [("type", JStr "stopped"); ("id", req_id);
                    ("wav_path", JStr wav_path); ("frames", JInt 0)])], Ok Next) /\
  stop wav_path env init = (init, [], Ok 0) /\
  (let r1 := (cancel env0 r0).1.1 in
   _chunks r1 = [] /\ stop wav_path env r1 = (r1, [], Ok 0)) /\
  (let r2 := (stop path0 env0 r0).1.1 in
   stop wav_path env r2 = (r2, [], Ok 0)).
Proof.
  intros Hrec Hpath Hne.
  split; [by apply stop_inactive |].
  split.
  { unfold dispatch. cbn [eq_str String.eqb Ascii.eqb Bool.eqb].
    unfold get. rewrite bind_ret, Hpath. cbn [truthy str].
    rewrite (eqb_nonempty _ Hne). cbn [negb].
    unfold bind at 1. rewrite (stop_inactive _ _ _ Hrec). reflexivity. }
  split; [by apply stop_inactive |].
  split.
  - destruct (cancel_returns env0 r0) as (ev & -> & _).
    split; [reflexivity | by apply stop_inactive].
  - apply stop_inactive, stop_leaves_inactive.
Qed.

Lemma start_recording device sample_rate channels env r :
  _recording r = true ->
  start device sample_rate channels env r = (r, [], Raise (RuntimeError "Already recording")).
Proof. intros H. run. rewrite H. reflexivity. Qed.

(** The arguments of [recorder.start] are evaluated from the message alone:
    that leaves the recorder as it is and causes no event. *)
Lemma int_pure v r : exists res, int v r = (r, [], res).
Proof.
  unfold int, ret, raise.
  destruct v as [| b | n | f | s | items | fields]; eauto.
  - destruct f; eauto.
  - destruct (int_of_str s); eauto.
Qed.

(** C4. [start] on an active session raises and assigns nothing: the
    session (buffer, active flag, stream handle, sample rate, channel count)
    is the one before the call.  The request is answered by one [error]
    response that carries the request's id, and the session is still the
    same after it. *)
Theorem start_while_recording
    (r : Recorder) (device : json) (sample_rate channels : Z) (env : Env)
    (line : string) (fields : list (string * json)) :
  _recording r = true ->
  strip line <> "" ->
  json_loads (strip line) = Some (JObj fields) ->
  lookup_field "type" fields = JStr "start" ->
  start device sample_rate channels env r =
    (r, [], Raise (RuntimeError "Already recording")) /\
  exists e,
    loop_body line env r =
      (r, [Log (format_exc e);
           Out (JObj [("type", JStr "error"); ("id", lookup_field "id" fields);
                      ("error", JStr (exn_msg e))])], Ok Next).
Proof.
  intros Hrec Hline Hjson Htype. split; [by apply start_recording |].
  rewrite (loop_body_parsed _ _ _ _ Hline Hjson), Htype.
  unfold answer, try_except, dispatch. cbn [eq_str String.eqb Ascii.eqb Bool.eqb].
  unfold get. rewrite !bind_ret.
  destruct (int_pure (py_or (lookup_field "sample_rate" fields) (JInt 16000)) r)
    as [[rate | e] Hrate]; rewrite (bind_pure _ _ _ _ Hrate).
  2: { exists e. reflexivity. }
  rewrite bind_ret.
  destruct (int_pure (py_or (lookup_field "channels" fields) (JInt 1)) r)
    as [[ch | e] Hch]; rewrite (bind_pure _ _ _ _ Hch).
  2: { exists e. reflexivity. }
  unfold bind at 1. rewrite (start_recording _ _ _ _ _ Hrec).
  exists (RuntimeError "Already recording"). reflexivity.
Qed.

(** [stop] with two teardown outcomes: the same state and the same result;
    the traces differ in what the teardown logged and requested only. *)
Lemma stop_teardown_irrelevant wav_path env abort close abort' close' r :
  exists r' res ev ev' tail,
    stop wav_path (with_teardown env abort close) r = (r', ev ++ tail, res) /\
    stop wav_path (with_teardown env abort' close') r = (r', ev' ++ tail, res) /\
    quiet ev /\ quiet ev' /\ responses tail = [].
Proof.
  run_to_teardown. destruct (_recording r); cbn.
  2: { exists r, (Ok 0), [], [], []. repeat split; intros e []. }
  match goal with |- context [teardown ?s (with_teardown env abort close) ?r'] =>
    destruct (teardown_returns s (with_teardown env abort close) r') as (ev & -> & Hq);
    destruct (teardown_returns s (with_teardown env abort' close') r') as (ev' & -> & Hq')
  end.
  destruct (_chunks r) as [| c cs]; cbn.
  { eexists _, _, ev, ev', []. rewrite !app_nil_r. by repeat split. }
  destruct (import_stop env); cbn.
  { eexists _, _, ev, ev', []. rewrite !app_nil_r. by repeat split. }
  destruct (write_wav env); cbn.
  all: eexists _, _, ev, ev', [_]; by repeat split.
Qed.

(** C5. [cancel] returns from every state, whatever the driver does at
    abort and close: the session is left inactive with an empty buffer and no
    stream, only log lines and the two driver requests have been made, and
    the request is answered [canceled].  For [stop], the state it leaves,
    what it returns or raises, and the responses written are those of the
    same [stop] with a teardown that raises nothing: an error of abort or
    close is logged and goes no further. *)
Theorem teardown_errors_swallowed
    (r : Recorder) (env : Env) (abort close : option exn) (wav_path : string)
    (message req_id : json) :
  let env' := with_teardown env abort close in
  let env0 := with_teardown env None None in
  (exists ev,
     cancel env' r =
       ({| _recording := false; _stream := None; _chunks := [];
           _sample_rate := _sample_rate r; _channels := _channels r |}, ev, Ok tt)
     /\ quiet ev) /\
  (exists r' ev,
     dispatch message (JStr "cancel") req_id env' r = (r', ev, Ok Next) /\
     responses ev = [JObj [("type", JStr "canceled"); ("id", req_id)]]) /\
  (stop wav_path env' r).1.1 = (stop wav_path env0 r).1.1 /\
  (stop wav_path env' r).2 = (stop wav_path env0 r).2 /\
  (let answered e := answer message (JStr "stop") req_id e r in
   (answered env').1.1 = (answered env0).1.1 /\
   (answered env').2 = (answered env0).2 /\
   responses (answered env').1.2 = responses (answered env0).1.2).
Proof.
  intros env' env0.
  destruct (cancel_returns env' r) as (evc & Hc & Hqc).
  split; [by exists evc |].
  split.
  { unfold dispatch. cbn [eq_str String.eqb Ascii.eqb Bool.eqb].
    unfold bind at 1. rewrite Hc. cbn.
    eexists _, _. split; [reflexivity |].
    rewrite responses_app, (quiet_responses _ Hqc). reflexivity. }
  assert (Hstop : forall p,
    exists r' res ev ev' tail,
      stop p env' r = (r', ev ++ tail, res) /\ stop p env0 r = (r', ev' ++ tail, res) /\
      quiet ev /\ quiet ev' /\ responses tail = [])
    by (intros p; apply stop_teardown_irrelevant).
  destruct (Hstop wav_path) as (r' & res & ev & ev' & tail & -> & -> & _).
  split; [reflexivity |]. split; [reflexivity |].
  intros answered. subst answered. cbv beta.
  unfold answer, try_except, dispatch. cbn [eq_str String.eqb Ascii.eqb Bool.eqb].
  unfold get. destruct message as [| b | n | f | s | items | fields];
    try (cbn; by repeat split).
  rewrite !bind_ret.
  destruct (negb (truthy (lookup_field "wav_path" fields))); [cbn; by repeat split |].
  unfold bind at 1 3 5 7 9 11.
  destruct (Hstop (str (lookup_field "wav_path" fields)))
    as (r2 & res2 & ev2 & ev2' & tail2 & -> & -> & Hq & Hq' & Ht).
  destruct res2 as [frames | e]; cbn.
  - rewrite !responses_app, Ht, (quiet_responses _ Hq), (quiet_responses _ Hq').
    by repeat split.
  - rewrite !responses_app, Ht, (quiet_responses _ Hq), (quiet_responses _ Hq').
    by repeat split.
Qed.

(** C10. A [start] message whose [sample_rate] is absent, null, zero or
    otherwise falsy has [recorder.start] called with 16000; one whose
    [channels] is falsy has it called with 1.  With both falsy, an inactive
    session and a driver that opens the stream, the stream is opened at
    16000 Hz with one channel, the session records with these, and the
    request is answered [started]. *)
Theorem start_defaults
    (r : Recorder) (fields : list (string * json)) (req_id : json) (env : Env) :
  let message := JObj fields in
  let device := lookup_field "device" fields in
  let respond :=
    _write_json (JObj [("type", JStr "started"); ("id", req_id)]) ;;; ret Next in
  (truthy (lookup_field "sample_rate" fields) = false ->
   dispatch message (JStr "start") req_id env r =
     (channels <- int (py_or (lookup_field "channels" fields) (JInt 1)) ;;
      start device 16000 channels env ;;; respond) r) /\
  (truthy (lookup_field "channels" fields) = false ->
   dispatch message (JStr "start") req_id env r =
     (sample_rate <- int (py_or (lookup_field "sample_rate" fields) (JInt 16000)) ;;
      start device sample_rate 1 env ;;; respond) r) /\
  (truthy (lookup_field "sample_rate" fields) = false ->
   truthy (lookup_field "channels" fields) = false ->
   _recording r = false ->
   import_start env = None -> open_stream env = None -> start_stream env = None ->
   dispatch message (JStr "start") req_id env r =
     (started device 16000 1,
      [OpenStream device 16000 1;
       StartStream {| st_device := device; st_samplerate := 16000; st_channels := 1 |};
       Out (JObj [("type", JStr "started"); ("id", req_id)])],
      Ok Next)).
Proof.
  intros message device respond. subst message device respond.
  assert (Hd : forall k : Z -> M control,
    dispatch (JObj fields) (JStr "start") req_id env r =
      (sample_rate <- int (py_or (lookup_field "sample_rate" fields) (JInt 16000)) ;;
       channels <- int (py_or (lookup_field "channels" fields) (JInt 1)) ;;
       start (lookup_field "device" fields) sample_rate channels env ;;;
       _write_json (JObj [("type", JStr "started"); ("id", req_id)]) ;;; ret Next) r).
  { intros _. unfold dispatch. cbn [eq_str String.eqb Ascii.eqb Bool.eqb].
    unfold get. rewrite !bind_ret.
    destruct (int_pure (py_or (lookup_field "sample_rate" fields) (JInt 16000)) r)
      as [[rate | e] Hrate]; rewrite !(bind_pure _ _ _ _ Hrate); [| reflexivity].
    by rewrite bind_ret. }
  specialize (Hd (fun _ => ret Next)).
  split; [| split].
  - intros Hrate. rewrite Hd. unfold py_or at 1. rewrite Hrate.
    cbn [int]. by rewrite bind_ret.
  - intros Hch. rewrite Hd. unfold py_or at 2. rewrite Hch.
    cbn [int].
    destruct (int_pure (py_or (lookup_field "sample_rate" fields) (JInt 16000)) r)
      as [[rate | e] Hrate]; rewrite !(bind_pure _ _ _ _ Hrate); [| reflexivity].
    by rewrite bind_ret.
  - intros Hrate Hch Hrec Himp Hopen Hstart. rewrite Hd.
    unfold py_or. rewrite Hrate, Hch. cbn [int]. rewrite !bind_ret.
    run. rewrite Hrec, Himp, Hopen, Hstart. reflexivity.
Qed.

(** The answer to [shutdown], for every message and every id it carries:
    [main] returns 0 after one response, [shutdown_ack], which has no [id]
    field. *)
Lemma shutdown_answer (message req_id : json) (env : Env) (r : Recorder) :
  exists r' ev,
    answer message (JStr "shutdown") req_id env r = (r', ev, Ok (Return 0)) /\
    responses ev = [JObj [("type", JStr "shutdown_ack")]].
Proof.
  unfold answer, try_except, dispatch, shutdown.
  cbn [eq_str String.eqb Ascii.eqb Bool.eqb].
  unfold bind at 1. destruct (cancel_returns env r) as (ev & -> & Hq).
  cbn. eexists _, _. split; [reflexivity |].
  by rewrite responses_app, (quiet_responses _ Hq).
Qed.

(** [start] writes nothing to stdout. *)
Lemma start_silent device sample_rate channels env r :
  responses (start device sample_rate channels env r).1.2 = [].
Proof.
  run. destruct (_recording r); [reflexivity |].
  destruct (import_start env), (open_stream env), (start_stream env); reflexivity.
Qed.

Lemma stop_silent wav_path env r : responses (stop wav_path env r).1.2 = [].
Proof.
  destruct (stop_teardown_irrelevant wav_path env (abort_stream env) (close_stream env)
              None None r) as (r' & res & ev & ev' & tail & H & _ & Hq & _ & Ht).
  replace (with_teardown env (abort_stream env) (close_stream env)) with env in H
    by (by destruct env).
  rewrite H. cbn. by rewrite responses_app, (quiet_responses _ Hq), Ht.
Qed.

(** The part of the protocol that holds: [start], [stop] and [cancel] are
    answered by one response, which carries the request's id ([None], written
    [null], when the request had none), and the loop goes on. *)
Lemma one_response_with_id (message req_id : json) (env : Env) (r : Recorder)
    (msg_type : string) :
  msg_type = "start" \/ msg_type = "stop" \/ msg_type = "cancel" ->
  is_Some (match message with JObj _ => Some tt | _ => None end) ->
  exists r' ev response,
    answer message (JStr msg_type) req_id env r = (r', ev, Ok Next) /\
    responses ev = [response] /\
    id_of response = req_id.
Proof.
  intros Htype [[] Hdict]. destruct message as [| | | | | | fields]; try discriminate.
  unfold answer, try_except.
  destruct Htype as [-> | [-> | ->]]; unfold dispatch;
    cbn [eq_str String.eqb Ascii.eqb Bool.eqb]; unfold get; rewrite ?bind_ret.
  - destruct (int_pure (py_or (lookup_field "sample_rate" fields) (JInt 16000)) r)
      as [[rate | e] Hrate]; rewrite !(bind_pure _ _ _ _ Hrate).
    2: { eexists _, _, _. cbn. by repeat split. }
    rewrite bind_ret.
    destruct (int_pure (py_or (lookup_field "channels" fields) (JInt 1)) r)
      as [[ch | e] Hch]; rewrite !(bind_pure _ _ _ _ Hch).
    2: { eexists _, _, _. cbn. by repeat split. }
    unfold bind at 1.
    pose proof (start_silent (lookup_field "device" fields) rate ch env r) as Hs.
    destruct (start (lookup_field "device" fields) rate ch env r) as [[r' ev] [[] | e]];
      cbn in Hs |- *; eexists _, _, _;
      (split; [reflexivity |]); rewrite ?responses_app, Hs; by split.
  - destruct (negb (truthy (lookup_field "wav_path" fields))).
    { eexists _, _, _. cbn. by repeat split. }
    unfold bind at 1.
    pose proof (stop_silent (str (lookup_field "wav_path" fields)) env r) as Hs.
    destruct (stop (str (lookup_field "wav_path" fields)) env r) as [[r' ev] [n | e]];
      cbn in Hs |- *; eexists _, _, _;
      (split; [reflexivity |]); rewrite ?responses_app, Hs; by split.
  - unfold bind at 1. destruct (cancel_returns env r) as (ev & -> & Hq).
    cbn. eexists _, _, _. split; [reflexivity |].
    rewrite responses_app, (quiet_responses _ Hq). by split.
Qed.

(** A blank line, a line that is not JSON and a message of an unknown type
    are answered by nothing, and leave the session as it is. *)
Lemma no_response_to_noise (line : string) (env : Env) (r : Recorder) :
  (strip line = "" \/ json_loads (strip line) = None \/
   exists fields, json_loads (strip line) = Some (JObj fields) /\
     eq_str (lookup_field "type" fields) "shutdown" = false /\
     eq_str (lookup_field "type" fields) "start" = false /\
     eq_str (lookup_field "type" fields) "stop" = false /\
     eq_str (lookup_field "type" fields) "cancel" = false) ->
  exists ev, loop_body line env r = (r, ev, Ok Next) /\ responses ev = [].
Proof.
  unfold loop_body. intros [Hblank | H].
  { rewrite Hblank. cbn. by exists []. }
  destruct (String.eqb_spec (strip line) ""); [by exists [] |].
  destruct H as [-> | (fields & -> & H1 & H2 & H3 & H4)].
  { eexists. split; reflexivity. }
  unfold get. rewrite !bind_ret.
  unfold try_except, dispatch. rewrite H1, H2, H3, H4.
  eexists. split; reflexivity.
Qed.

(** A line of JSON that is not an object ends [main] with the exception of
    [message.get], unanswered. *)
Lemma not_a_dict_leaves_main (line : string) (env : Env) (r : Recorder) (message : json) :
  strip line <> "" ->
  json_loads (strip line) = Some message ->
  match message with JObj _ => False | _ => True end ->
  exists e, loop_body line env r = (r, [], Raise e).
Proof.
  intros Hline Hjson Hnd. unfold loop_body.
  rewrite (eqb_nonempty _ Hline), Hjson.
  destruct message; try contradiction; eexists; reflexivity.
Qed.

(** ** The pairing of the active flag and the stream handle *)

Lemma paired_init : paired init.
Proof.
  unfold paired, init; cbn. split; [discriminate |].
  intros [[s Hs] _]. discriminate.
Qed.

Lemma inactive_paired r : _recording r = false -> _stream r = None -> paired r.
Proof.
  intros Hrec Hs. unfold paired. rewrite Hrec, Hs. split; [discriminate |].
  intros [[s Hsome] _]. discriminate.
Qed.

Lemma paired_stop wav_path env r : paired r -> paired (stop wav_path env r).1.1.
Proof.
  intros Hp. destruct (_recording r) eqn:Hrec.
  2: { by rewrite (stop_inactive _ _ _ Hrec). }
  apply inactive_paired; [apply stop_leaves_inactive |].
  run_to_teardown. rewrite Hrec. cbn.
  match goal with |- context [teardown ?s env ?r'] =>
    destruct (teardown_returns s env r') as (ev & -> & Hq) end.
  destruct (_chunks r); [reflexivity |].
  destruct (import_stop env); [reflexivity |].
  destruct (write_wav env); reflexivity.
Qed.

Lemma paired_cancel env r : paired (cancel env r).1.1.
Proof.
  destruct (cancel_returns env r) as (ev & -> & _). by apply inactive_paired.
Qed.

Lemma paired_callback indata status r : paired r -> paired (callback indata status r).1.1.
Proof.
  unfold paired. run.
  destruct status, (_recording r) eqn:Hrec; cbn; rewrite ?Hrec; auto.
Qed.

(** [start] keeps the pairing when the driver opens and starts the stream
    (or when nothing is assigned, on an active session or a failed import). *)
Lemma paired_start device sample_rate channels env r :
  open_stream env = None ->
  start_stream env = None ->
  paired r ->
  paired (start device sample_rate channels env r).1.1.
Proof.
  intros Hopen Hstart Hp. run. destruct (_recording r) eqn:Hrec; [exact Hp |].
  destruct (import_start env); [exact Hp |].
  rewrite Hopen, Hstart. cbn. unfold paired; cbn. split; [| reflexivity].
  intros _. repeat split; eexists; reflexivity.
Qed.

(** What every operation keeps, whatever the driver does. *)
Lemma attached_init : attached init.
Proof.
  unfold attached, init; cbn. split; [intros [s Hs] |]; discriminate.
Qed.

Lemma attached_start device sample_rate channels env r :
  attached r -> attached (start device sample_rate channels env r).1.1.
Proof.
  intros Ha. run. destruct (_recording r) eqn:Hrec; [exact Ha |].
  destruct (import_start env); [exact Ha |].
  assert (Hnone : _stream r = None).
  { destruct Ha as [Hs _]. destruct (_stream r) as [s |]; [| reflexivity].
    specialize (Hs (ex_intro _ s eq_refl)). congruence. }
  destruct (open_stream env), (start_stream env); cbn; unfold attached; cbn;
    rewrite ?Hnone; (split; [auto | intros _; split; eexists; reflexivity]).
Qed.

Lemma attached_stop wav_path env r : attached r -> attached (stop wav_path env r).1.1.
Proof.
  intros Ha. destruct (_recording r) eqn:Hrec.
  2: { by rewrite (stop_inactive _ _ _ Hrec). }
  pose proof (stop_leaves_inactive wav_path env r) as Hin.
  unfold attached. rewrite Hin. split; [| discriminate].
  revert Hin. run_to_teardown. rewrite Hrec. cbn.
  match goal with |- context [teardown ?s env ?r'] =>
    destruct (teardown_returns s env r') as (ev & -> & Hq) end.
  destruct (_chunks r); [cbn; by intros _ [s Hs] |].
  destruct (import_stop env); [cbn; by intros _ [s Hs] |].
  destruct (write_wav env); cbn; by intros _ [s Hs].
Qed.

Lemma attached_cancel env r : attached (cancel env r).1.1.
Proof.
  destruct (cancel_returns env r) as (ev & -> & _).
  unfold attached; cbn. split; [intros [s Hs] |]; discriminate.
Qed.

Lemma attached_callback indata status r :
  attached r -> attached (callback indata status r).1.1.
Proof.
  unfold attached. run.
  destruct status, (_recording r) eqn:Hrec; cbn; rewrite ?Hrec; auto.
Qed.

(** C9, on the code.  From the initial state, a [start] whose stream the
    driver does not open raises the driver's exception and leaves the
    session active with no stream handle: the pairing of the data model is
    broken, and every later [start] is refused. *)
Theorem failed_open_breaks_pairing
    (device : json) (sample_rate channels : Z) (e : exn) :
  let run := start device sample_rate channels (open_fails e) init in
  let r := run.1.1 in
  run.2 = Raise e /\
  _recording r = true /\
  _stream r = None /\
  ~ paired r /\
  (forall device' sample_rate' channels' env,
     start device' sample_rate' channels' env r =
       (r, [], Raise (RuntimeError "Already recording"))).
Proof.
  cbn. repeat split.
  intros [H _]. destruct (H eq_refl) as [[s Hs] _]. discriminate.
Qed.

(** * Properties of the two threads *)

Lemma deref_old heap l : (l < length heap)%nat -> deref (heap ++ [[]]) l = deref heap l.
Proof. intros H. unfold deref. by rewrite lookup_app_l. Qed.

Lemma deref_new heap : deref (heap ++ [[]]) (length heap) = [].
Proof. unfold deref. by rewrite list_lookup_middle. Qed.

Lemma held_new heap : held (heap ++ [[]]) = held heap.
Proof.
  unfold held. induction heap as [| c heap IH]; cbn; [reflexivity |].
  cbn in IH. by rewrite IH.
Qed.

Lemma held_append heap (target : loc) indata :
  (held heap <= held (alter (fun c => c ++ [indata]) target heap) <= held heap + 1)%nat.
Proof.
  unfold held. revert target.
  induction heap as [| c heap IH]; intros target; [destruct target; cbn; lia |].
  destruct target as [| target]; cbn.
  - rewrite length_app. cbn. lia.
  - specialize (IH target). cbn in IH. lia.
Qed.

(** ** Appends after the flag is cleared *)

(** Splits on what a [match] of the goal looks at, until none is left. *)
Ltac split_cases :=
  repeat (match goal with
          | |- context [match ?x with _ => _ end] => destruct x; cbn
          end);
  auto.

(** No statement of [stop] or [cancel] sets the flag or appends a block. *)
Lemma stop_step_keeps wav_path env pc m :
  m_recording m = false ->
  m_recording (stop_step wav_path env pc m).1.1 = false /\
  held (m_heap (stop_step wav_path env pc m).1.1) = held (m_heap m).
Proof.
  intros Hrec.
  destruct pc; cbn; rewrite ?Hrec; cbn; rewrite ?held_new; auto; split_cases.
Qed.

Lemma cancel_step_keeps env pc m :
  m_recording m = false ->
  m_recording (cancel_step env pc m).1.1 = false /\
  held (m_heap (cancel_step env pc m).1.1) = held (m_heap m).
Proof.
  intros Hrec.
  destruct pc; cbn; rewrite ?Hrec; cbn; rewrite ?held_new; auto; split_cases.
Qed.

(** One move, once the flag is cleared and with [start] out of the way: the
    flag stays cleared, and a block is appended only by the callback that was
    past its test. *)
Lemma step_after_clear mv c c' :
  m_recording (mem c) = false ->
  not_starting c ->
  (forall device sample_rate channels env,
     mv <> Call (Start device sample_rate channels env)) ->
  step mv c = Some c' ->
  m_recording (mem c') = false /\
  not_starting c' /\
  (blocks_held c <= blocks_held c')%nat /\
  (blocks_held c' + append_pending c' <= blocks_held c + append_pending c)%nat.
Proof.
  intros Hrec Hns Hmv Hstep. unfold blocks_held, append_pending, not_starting in *.
  destruct mv as [q | | indata status |]; cbn in Hstep.
  - destruct (main_at c); try discriminate. inversion Hstep; subst; cbn.
    destruct q as [d s ch e | p e | e]; cbn; [by destruct (Hmv d s ch e) | |];
      repeat split; auto; lia.
  - destruct (main_at c) as [| pc d s ch e | pc p e | pc e] eqn:Hmain;
      try discriminate; [contradiction | |];
      inversion Hstep; subst; unfold ctl_step; rewrite Hmain.
    + destruct (stop_step_keeps p e pc (mem c) Hrec) as [H1 H2].
      destruct (stop_step p e pc (mem c)) as [[m ev] [pc' | out]];
        cbn in *; rewrite H1, H2; repeat split; auto; lia.
    + destruct (cancel_step_keeps e pc (mem c) Hrec) as [H1 H2].
      destruct (cancel_step e pc (mem c)) as [[m ev] [pc' | out]];
        cbn in *; rewrite H1, H2; repeat split; auto; lia.
  - destruct (audio_at c); try discriminate. inversion Hstep; subst; cbn.
    repeat split; auto; lia.
  - destruct (audio_at c) as [pc |]; try discriminate.
    destruct pc as [indata status | indata | indata | indata target];
      cbn in Hstep; inversion Hstep; subst; cbn; rewrite ?Hrec;
      repeat split; auto; try lia.
    all: pose proof (held_append (m_heap (mem c)) target indata) as H;
      unfold append_to in *; cbn in H |- *; lia.
Qed.

Lemma exec_after_clear schedule : forall c c',
  m_recording (mem c) = false ->
  not_starting c ->
  calls_no_start schedule ->
  exec schedule c = Some c' ->
  m_recording (mem c') = false /\
  (blocks_held c <= blocks_held c')%nat /\
  (blocks_held c' + append_pending c' <= blocks_held c + append_pending c)%nat.
Proof.
  induction schedule as [| mv rest IH]; intros c c' Hrec Hns Hcalls Hexec; cbn in Hexec.
  - inversion Hexec; subst. repeat split; auto.
  - destruct (step mv c) as [c1 |] eqn:Hstep; [| discriminate].
    destruct (step_after_clear mv c c1 Hrec Hns) as (Hrec1 & Hns1 & Hle & Hbound);
      [| exact Hstep |].
    { intros d s ch e ->. apply (Hcalls d s ch e). by left. }
    destruct (IH c1 c' Hrec1 Hns1) as (Hrec' & Hle' & Hbound'); [| exact Hexec |].
    { intros d s ch e Hin. apply (Hcalls d s ch e). by right. }
    repeat split; auto; lia.
Qed.

(** C7, as the code has it.  No lock is taken: the callback reads the flag
    and appends in separate steps, and [stop] and [cancel] clear the flag and
    replace the buffer in separate steps.  Once the flag is cleared, and until
    a later [start], the flag stays cleared and at most one block is
    appended, by the callback invocation that had read the flag as set before
    it was cleared; if no invocation is at that point, none is appended. *)
Theorem at_most_one_late_append (c c' : Config) (schedule : list move) :
  m_recording (mem c) = false ->
  not_starting c ->
  calls_no_start schedule ->
  exec schedule c = Some c' ->
  m_recording (mem c') = false /\
  (blocks_held c <= blocks_held c' <= blocks_held c + append_pending c)%nat /\
  (append_pending c <= 1)%nat /\
  (append_pending c = 0%nat -> blocks_held c' = blocks_held c).
Proof.
  intros Hrec Hns Hcalls Hexec.
  destruct (exec_after_clear schedule c c' Hrec Hns Hcalls Hexec) as (Hrec' & Hle & Hb).
  assert (Hp : (append_pending c <= 1)%nat).
  { unfold append_pending. destruct (audio_at c) as [[] |]; lia. }
  repeat split; auto; lia.
Qed.

(** ** The order of the effects of [stop] *)

(** C3, as the code has it.  [stop] on an active session that holds a
    stream, the main thread running alone.  First (lines 63 and 66, two
    statements) the flag is cleared and nothing else is touched.  Second
    (lines 67 to 70, six statements in all) the stream handle is taken out
    of the session and the buffer is taken, the session's buffer being a new
    empty list, with nothing asked of the driver yet.  Third (lines 72 and
    74, then 75 or 77) abort is requested, then close, or the error of abort
    is logged; the memory stays as the second step left it. *)
Theorem stop_takes_buffer_before_teardown
    (m : Shared) (s : Stream) (wav_path : string) (env : Env)
    (a : option callback_pc) (tr : list event) (outs : list outcome) :
  m_recording m = true ->
  m_stream m = Some s ->
  let c0 := {| mem := m; main_at := InStop L63 wav_path env; audio_at := a;
               trace := tr; outcomes := outs |} in
  let detached := store_new_chunks (store_stream None (store_recording false m)) in
  (mem (run_ctl 2 c0) = store_recording false m /\ trace (run_ctl 2 c0) = tr) /\
  run_ctl 6 c0 =
    {| mem := detached; main_at := InStop (L72 (Some s) (m_chunks m)) wav_path env;
       audio_at := a; trace := tr; outcomes := outs |} /\
  deref (m_heap detached) (m_chunks detached) = [] /\
  (mem (run_ctl 8 c0) = detached /\ trace (run_ctl 8 c0) = tr ++ [AbortStream s]) /\
  (mem (run_ctl 9 c0) = detached /\
   trace (run_ctl 9 c0) =
     tr ++ [AbortStream s;
            match abort_stream env with
            | None => CloseStream s
            | Some e => Log (format_exc e)
            end]).
Proof.
  intros Hrec Hstream c0 detached. subst c0 detached.
  destruct m as [recording stream chunks rate channels heap].
  cbn in Hrec, Hstream. subst recording stream.
  split; [cbn; by rewrite !app_nil_r |].
  split; [cbn; by rewrite !app_nil_r |].
  split; [apply deref_new |].
  cbn. destruct (abort_stream env); cbn; [| destruct (close_stream env); cbn];
    rewrite !app_nil_r, <- ?app_assoc; by repeat split.
Qed.

(** ** The methods run alone

    With the audio thread standing still, the statements of a method do
    what the method does as a whole. *)

Lemma run_ctl_S n c : run_ctl (S n) c = run_ctl n (ctl_step c).
Proof. reflexivity. Qed.

Lemma run_ctl_0 c : run_ctl 0 c = c.
Proof. reflexivity. Qed.

(** Runs the next statement of the main thread, when what it does is
    decided. *)
Ltac tick :=
  match goal with
  | |- context [run_ctl (S ?n) ?c] =>
      let c' := eval cbn in (ctl_step c) in
      lazymatch c' with
      | Build_Config _ _ _ _ _ =>
          rewrite (run_ctl_S n c); change (ctl_step c) with c'
      end
  end.

(** Runs it and leaves what it looks at in the goal. *)
Ltac tick_open :=
  match goal with
  | |- context [run_ctl (S ?n) ?c] =>
      let c' := eval cbn in (ctl_step c) in
      rewrite (run_ctl_S n c); change (ctl_step c) with c'
  end.

Ltac finish_alone :=
  rewrite ?run_ctl_0; unfold view;
  cbn [main_at audio_at trace outcomes mem m_recording m_stream
       m_chunks m_sample_rate m_channels m_heap store_new_chunks store_stream
       store_recording store_sample_rate store_channels];
  repeat match goal with H : deref _ _ = _ |- _ => progress rewrite H end;
  run; cbn;
  rewrite ?deref_new, ?app_nil_r, <- ?app_assoc; repeat split; reflexivity.

Lemma stop_alone (c : Config) (wav_path : string) (env : Env) :
  main_at c = Idle ->
  chunks_bound (mem c) ->
  exists c0,
    step (Call (Stop wav_path env)) c = Some c0 /\
    let c' := run_ctl 17 c0 in
    let whole := stop wav_path env (view (mem c)) in
    main_at c' = Idle /\
    audio_at c' = audio_at c /\
    view (mem c') = whole.1.1 /\
    trace c' = trace c ++ whole.1.2 /\
    outcomes c' = outcomes c ++ [outcome_of Some whole.2].
Proof.
  destruct c as [[recording stream chunks rate channels heap] main audio tr outs].
  destruct env as [imp_start open start_s abort close imp_stop write].
  unfold chunks_bound. cbn [mem main_at m_chunks m_heap]. intros -> Hbound.
  eexists. split; [reflexivity |]. cbv zeta.
  destruct recording.
  2: { repeat tick. finish_alone. }
  assert (Hold := deref_old heap chunks Hbound).
  destruct stream as [s |], abort as [ea |], close as [ec |];
    repeat tick; tick_open; rewrite Hold;
    (destruct (deref heap chunks) as [| b bs] eqn:Hc; [repeat tick; finish_alone |]);
    destruct imp_stop as [ei |], write as [ew |]; repeat tick;
    rewrite ?Hold; finish_alone.
Qed.

Lemma cancel_alone (c : Config) (env : Env) :
  main_at c = Idle ->
  exists c0,
    step (Call (Cancel env)) c = Some c0 /\
    let c' := run_ctl 8 c0 in
    let whole := cancel env (view (mem c)) in
    main_at c' = Idle /\
    audio_at c' = audio_at c /\
    view (mem c') = whole.1.1 /\
    trace c' = trace c ++ whole.1.2 /\
    outcomes c' = outcomes c ++ [outcome_of (fun _ => None) whole.2].
Proof.
  destruct c as [[recording stream chunks rate channels heap] main audio tr outs].
  destruct env as [imp_start open start_s abort close imp_stop write].
  cbn [mem main_at]. intros ->.
  eexists. split; [reflexivity |]. cbv zeta.
  destruct stream as [s |], abort as [ea |], close as [ec |];
    repeat tick; finish_alone.
Qed.

Lemma start_alone (c : Config) (device : json) (sample_rate channels : Z) (env : Env) :
  main_at c = Idle ->
  exists c0,
    step (Call (Start device sample_rate channels env)) c = Some c0 /\
    let c' := run_ctl 9 c0 in
    let whole := start device sample_rate channels env (view (mem c)) in
    main_at c' = Idle /\
    audio_at c' = audio_at c /\
    view (mem c') = whole.1.1 /\
    trace c' = trace c ++ whole.1.2 /\
    outcomes c' = outcomes c ++ [outcome_of (fun _ => None) whole.2].
Proof.
  destruct c as [[recording stream chunks rate chans heap] main audio tr outs].
  destruct env as [imp_start open start_s abort close imp_stop write].
  cbn [mem main_at]. intros ->.
  eexists. split; [reflexivity |]. cbv zeta.
  destruct recording, imp_start as [ei |], open as [eo |], start_s as [es |];
    repeat tick; finish_alone.
Qed.

Lemma deref_append heap (l : loc) indata :
  (l < length heap)%nat ->
  deref (alter (fun c => c ++ [indata]) l heap) l = deref heap l ++ [indata].
Proof.
  intros Hl. unfold deref.
  destruct (lookup_lt_is_Some_2 heap l Hl) as [chunks Hc].
  rewrite list_lookup_alter_eq, Hc. reflexivity.
Qed.

(** The callback run alone, from its invocation to its return: four
    statements on an active session, two on an inactive one. *)
Lemma callback_alone (c : Config) (indata : block) (status : option string) :
  audio_at c = None ->
  chunks_bound (mem c) ->
  let whole := callback indata status (view (mem c)) in
  let schedule :=
    if m_recording (mem c) then [Fire indata status; Cb; Cb; Cb; Cb]
    else [Fire indata status; Cb; Cb] in
  exists c',
    exec schedule c = Some c' /\
    audio_at c' = None /\
    main_at c' = main_at c /\
    view (mem c') = whole.1.1 /\
    trace c' = trace c ++ whole.1.2.
Proof.
  destruct c as [[recording stream chunks rate chans heap] main audio tr outs].
  unfold chunks_bound. cbn [mem audio_at m_chunks m_heap m_recording].
  intros -> Hbound. cbv zeta.
  destruct recording, status as [text |]; cbn [exec step]; cbn;
    (eexists; split; [reflexivity |]); unfold view, append_to; run; cbn;
    rewrite ?(deref_append _ _ _ Hbound), ?app_nil_r; by repeat split.
Qed.

(** ** [self._chunks] always refers to a list object *)

Lemma new_chunks_bound m : chunks_bound (store_new_chunks m).
Proof. unfold chunks_bound. cbn. rewrite length_app. cbn. lia. Qed.

Ltac bound_cases H :=
  cbn; split_cases; try apply new_chunks_bound; exact H.

Lemma stop_step_bound wav_path env pc m :
  chunks_bound m -> chunks_bound (stop_step wav_path env pc m).1.1.
Proof. intros H. destruct pc; bound_cases H. Qed.

Lemma cancel_step_bound env pc m :
  chunks_bound m -> chunks_bound (cancel_step env pc m).1.1.
Proof. intros H. destruct pc; bound_cases H. Qed.

Lemma start_step_bound device sample_rate channels env pc m :
  chunks_bound m -> chunks_bound (start_step device sample_rate channels env pc m).1.1.
Proof. intros H. destruct pc; bound_cases H. Qed.

Lemma callback_step_bound pc m :
  chunks_bound m -> chunks_bound (callback_step pc m).1.1.
Proof.
  intros H. destruct pc; cbn; try exact H.
  unfold chunks_bound in *. cbn. by rewrite length_alter.
Qed.

Lemma step_bound mv c c' :
  step mv c = Some c' -> chunks_bound (mem c) -> chunks_bound (mem c').
Proof.
  intros Hstep H. destruct mv as [q | | indata status |]; cbn in Hstep.
  - destruct (main_at c); inversion Hstep; subst; exact H.
  - destruct (main_at c) as [| pc d s ch e | pc p e | pc e] eqn:Hmain;
      inversion Hstep; subst; unfold ctl_step; rewrite Hmain.
    + pose proof (start_step_bound d s ch e pc (mem c) H) as Hb.
      by destruct (start_step d s ch e pc (mem c)) as [[m ev] [pc' | out]].
    + pose proof (stop_step_bound p e pc (mem c) H) as Hb.
      by destruct (stop_step p e pc (mem c)) as [[m ev] [pc' | out]].
    + pose proof (cancel_step_bound e pc (mem c) H) as Hb.
      by destruct (cancel_step e pc (mem c)) as [[m ev] [pc' | out]].
  - destruct (audio_at c); inversion Hstep; subst; exact H.
  - destruct (audio_at c) as [pc |]; [| discriminate].
    pose proof (callback_step_bound pc (mem c) H) as Hb.
    destruct (callback_step pc (mem c)) as [[m ev] pc'].
    inversion Hstep; subst; exact Hb.
Qed.

(** In every configuration the two threads can reach from [boot]. *)
Lemma reachable_bound schedule : forall c c',
  chunks_bound (mem c) -> exec schedule c = Some c' -> chunks_bound (mem c').
Proof.
  induction schedule as [| mv rest IH]; intros c c' H Hexec; cbn in Hexec.
  - by inversion Hexec; subst.
  - destruct (step mv c) as [c1 |] eqn:Hstep; [| discriminate].
    eapply IH; [| exact Hexec]. eapply step_bound; eauto.
Qed.

Lemma boot_bound : chunks_bound (mem boot).
Proof. unfold chunks_bound. cbn. lia. Qed.

(** * More of the control loop and of the recorder *)

(** The message [message.get] fails on. *)
Definition no_get (v : json) : exn :=
  AttributeError ("'" +:+ type_name v +:+ "' object has no attribute 'get'").

Definition is_dict (v : json) : bool :=
  match v with
  | JObj _ => true
  | _ => false
  end.

(** The [type] a response carries. *)
Definition type_of (response : json) : json :=
  match response with
  | JObj fields => lookup_field "type" fields
  | _ => JNull
  end.

(** A response to a request with id [req_id]: one of the five types, with
    the request's id unless it is [shutdown_ack]. *)
Definition answers (req_id : json) (response : json) : Prop :=
  type_of response = JStr "shutdown_ack" \/
  ((type_of response = JStr "started" \/ type_of response = JStr "stopped" \/
    type_of response = JStr "canceled" \/ type_of response = JStr "error") /\
   id_of response = req_id).

(** A response of one of the five types. *)
Definition typed (response : json) : Prop := exists req_id, answers req_id response.

(** What one request can do to the recorder: nothing, or what one call of
    [start], [stop] or [cancel] does. *)
Definition one_call (env : Env) (r r' : Recorder) : Prop :=
  r' = r \/
  r' = (cancel env r).1.1 \/
  (exists wav_path, r' = (stop wav_path env r).1.1) \/
  (exists device sample_rate channels,
     r' = (start device sample_rate channels env r).1.1).

Lemma answer_outcome (message msg_type req_id : json) (env : Env) (r : Recorder) :
  exists r' ev c,
    answer message msg_type req_id env r = (r', ev, Ok c) /\
    (responses ev = [] \/
     exists response, responses ev = [response] /\ answers req_id response) /\
    one_call env r r' /\
    (c = if eq_str msg_type "shutdown" then Return 0 else Next).
Proof.
  unfold answer, try_except, dispatch, one_call, answers.
  destruct (eq_str msg_type "shutdown") eqn:Hsd.
  { unfold shutdown, bind at 1. destruct (cancel_returns env r) as (ev & -> & Hq).
    cbn. eexists _, _, _. split; [reflexivity |].
    rewrite responses_app, (quiet_responses _ Hq). cbn.
    split; [right; eexists; split; [reflexivity | by left] |]. split; auto. }
  destruct (eq_str msg_type "start") eqn:Hst.
  { unfold get. destruct message as [| | | | | | fields];
      try (cbn; eexists _, _, _; split; [reflexivity |]; cbn;
           split; [right; eexists; split; [reflexivity | right; by auto] | by auto]).
    rewrite !bind_ret.
    destruct (int_pure (py_or (lookup_field "sample_rate" fields) (JInt 16000)) r)
      as [[rate | e] Hrate]; rewrite !(bind_pure _ _ _ _ Hrate).
    2: { cbn; eexists _, _, _; split; [reflexivity |]; cbn.
         split; [right; eexists; split; [reflexivity | right; by auto] | by auto]. }
    rewrite bind_ret.
    destruct (int_pure (py_or (lookup_field "channels" fields) (JInt 1)) r)
      as [[ch | e] Hch]; rewrite !(bind_pure _ _ _ _ Hch).
    2: { cbn; eexists _, _, _; split; [reflexivity |]; cbn.
         split; [right; eexists; split; [reflexivity | right; by auto] | by auto]. }
    unfold bind at 1.
    pose proof (start_silent (lookup_field "device" fields) rate ch env r) as Hs.
    assert (Hstate : exists d s c,
      (start (lookup_field "device" fields) rate ch env r).1.1 = (start d s c env r).1.1)
      by (by eexists _, _, _).
    destruct (start (lookup_field "device" fields) rate ch env r) as [[r' ev] [[] | e]];
      cbn in Hs, Hstate |- *; eexists _, _, _; (split; [reflexivity |]);
      rewrite ?responses_app, Hs; cbn;
      (split; [right; eexists; split; [reflexivity | right; by auto] |]);
      split; auto; do 3 right; exact Hstate. }
  destruct (eq_str msg_type "stop") eqn:Hsp.
  { unfold get. destruct message as [| | | | | | fields];
      try (cbn; eexists _, _, _; split; [reflexivity |]; cbn;
           split; [right; eexists; split; [reflexivity | right; by auto 6] | by auto]).
    rewrite !bind_ret.
    destruct (negb (truthy (lookup_field "wav_path" fields))).
    { cbn; eexists _, _, _; split; [reflexivity |]; cbn.
      split; [right; eexists; split; [reflexivity | right; by auto 6] | by auto]. }
    unfold bind at 1.
    pose proof (stop_silent (str (lookup_field "wav_path" fields)) env r) as Hs.
    assert (Hstate : exists p,
      (stop (str (lookup_field "wav_path" fields)) env r).1.1 = (stop p env r).1.1)
      by (by eexists).
    destruct (stop (str (lookup_field "wav_path" fields)) env r) as [[r' ev] [n | e]];
      cbn in Hs, Hstate |- *; eexists _, _, _; (split; [reflexivity |]);
      rewrite ?responses_app, Hs; cbn;
      (split; [right; eexists; split; [reflexivity | right; by auto 6] |]);
      split; auto. }
  destruct (eq_str msg_type "cancel") eqn:Hc.
  { unfold bind at 1. destruct (cancel_returns env r) as (ev & Hcancel & Hq).
    rewrite Hcancel. cbn. eexists _, _, _. split; [reflexivity |].
    rewrite responses_app, (quiet_responses _ Hq). cbn.
    split; [right; eexists; split; [reflexivity | right; by auto 6] |].
    split; auto. }
  cbn. eexists _, _, _. split; [reflexivity |]. cbn. auto.
Qed.

(** The three ways one turn of the loop goes: the line is skipped, or
    [message.get] fails on a value that is not a dict, or the request is
    handled inside the [try]. *)
Lemma loop_body_outcome (line : string) (env : Env) (r : Recorder) :
  (exists ev, loop_body line env r = (r, ev, Ok Next) /\ responses ev = []) \/
  (exists v, strip line <> "" /\ json_loads (strip line) = Some v /\
             is_dict v = false /\ loop_body line env r = (r, [], Raise (no_get v))) \/
  (exists fields, strip line <> "" /\ json_loads (strip line) = Some (JObj fields) /\
     loop_body line env r =
       answer (JObj fields) (lookup_field "type" fields) (lookup_field "id" fields) env r).
Proof.
  destruct (String.eqb_spec (strip line) "") as [Hblank | Hline].
  { left. unfold loop_body. rewrite Hblank. cbn. by exists []. }
  destruct (json_loads (strip line)) as [v |] eqn:Hjson.
  2: { left. unfold loop_body. rewrite (eqb_nonempty _ Hline), Hjson.
       eexists. split; reflexivity. }
  destruct (is_dict v) eqn:Hd.
  - right; right. destruct v; try discriminate. eexists. repeat split; auto.
    by apply loop_body_parsed.
  - right; left. exists v. repeat split; auto.
    unfold loop_body. rewrite (eqb_nonempty _ Hline), Hjson.
    destruct v; try discriminate; reflexivity.
Qed.

(** The [for] loop, one input at a time. *)
Lemma serve_line text env rest r :
  serve (Line text env :: rest) r =
    match loop_body text env r with
    | (r1, ev1, Ok Next) =>
        match serve rest r1 with
        | (r2, ev2, res) => (r2, ev1 ++ ev2, res)
        end
    | (r1, ev1, Ok (Return code)) => (r1, ev1, Ok code)
    | (r1, ev1, Raise e) => (r1, ev1, Raise e)
    end.
Proof.
  cbn [serve]. unfold bind.
  destruct (loop_body text env r) as [[r1 ev1] [[| code] | e]]; try reflexivity.
  cbn. by rewrite app_nil_r.
Qed.

Lemma serve_block indata status rest r :
  serve (Block indata status :: rest) r =
    match callback indata status r with
    | (r1, ev1, _) =>
        match serve rest r1 with
        | (r2, ev2, res) => (r2, ev1 ++ ev2, res)
        end
    end.
Proof.
  cbn [serve]. unfold bind.
  assert (H : exists r1 ev1, callback indata status r = (r1, ev1, Ok tt)).
  { run. destruct status, (_recording r); cbn; eauto. }
  destruct H as (r1 & ev1 & ->). reflexivity.
Qed.

Lemma callback_silent indata status r : responses (callback indata status r).1.2 = [].
Proof. run. destruct status, (_recording r); reflexivity. Qed.

(** The lines among the inputs. *)
Fixpoint count_lines (inputs : list input) : nat :=
  match inputs with
  | [] => 0%nat
  | Line _ _ :: rest => S (count_lines rest)
  | Block _ _ :: rest => count_lines rest
  end.

(** X6. What [main] writes to stdout: first [ready], then at most one
    response per line read, each of type [started], [stopped], [canceled],
    [shutdown_ack] or [error]; the callback and the methods of the recorder
    write none. *)
Theorem main_responses (inputs : list input) :
  exists rest,
    responses (main inputs).1.2 = JObj [("type", JStr "ready")] :: rest /\
    Forall typed rest /\
    (length rest <= count_lines inputs)%nat.
Proof.
  assert (Hserve : forall inputs r,
    Forall typed (responses (serve inputs r).1.2) /\
    (length (responses (serve inputs r).1.2) <= count_lines inputs)%nat).
  { clear inputs. induction inputs as [| i rest IH]; intros r.
    { cbn. split; [constructor | lia]. }
    destruct i as [text env | indata status].
    - rewrite serve_line. cbn [count_lines].
      destruct (loop_body_outcome text env r)
        as [(ev & -> & Hev) | [(v & Hl & Hj & Hd & ->) | (fields & Hl & Hj & ->)]].
      + destruct (IH r) as [Ht Hn].
        destruct (serve rest r) as [[r2 ev2] res]. cbn in *.
        rewrite responses_app, Hev. cbn. split; [exact Ht | lia].
      + cbn. split; [constructor | lia].
      + destruct (answer_outcome (JObj fields) (lookup_field "type" fields)
                    (lookup_field "id" fields) env r)
          as (r' & ev & c & -> & Hresp & _ & ->).
        assert (Hev : Forall typed (responses ev) /\ (length (responses ev) <= 1)%nat).
        { destruct Hresp as [-> | (resp & -> & Ha)].
          - split; [constructor | cbn; lia].
          - split; [| cbn; lia]. constructor; [| constructor]. by eexists. }
        destruct Hev as [Ht1 Hn1].
        destruct (eq_str (lookup_field "type" fields) "shutdown").
        { cbn. split; [exact Ht1 | lia]. }
        destruct (IH r') as [Ht Hn].
        destruct (serve rest r') as [[r2 ev2] res]. cbn in *.
        rewrite responses_app, length_app.
        split; [by apply Forall_app | lia].
    - rewrite serve_block. cbn [count_lines].
      pose proof (callback_silent indata status r) as Hs.
      destruct (callback indata status r) as [[r1 ev1] res1].
      destruct (IH r1) as [Ht Hn].
      destruct (serve rest r1) as [[r2 ev2] res]. cbn in *.
      rewrite responses_app, Hs. cbn. by split. }
  unfold main, bind, _write_json, emit.
  destruct (Hserve inputs init) as [Ht Hn].
  destruct (serve inputs init) as [[r2 ev2] res]. cbn in *.
  eexists. split; [reflexivity |]. by split.
Qed.

(** The driver opens and starts every stream it is asked for. *)
Definition opens (env : Env) : Prop :=
  open_stream env = None /\ start_stream env = None.

Fixpoint all_lines (good : Env -> Prop) (inputs : list input) : Prop :=
  match inputs with
  | [] => True
  | Line _ env :: rest => good env /\ all_lines good rest
  | Block _ _ :: rest => all_lines good rest
  end.

(** What the methods keep, the loop keeps. *)
Lemma serve_keeps (P : Recorder -> Prop) (good : Env -> Prop) :
  (forall device sample_rate channels env r,
     good env -> P r -> P (start device sample_rate channels env r).1.1) ->
  (forall wav_path env r, P r -> P (stop wav_path env r).1.1) ->
  (forall env r, P r -> P (cancel env r).1.1) ->
  (forall indata status r, P r -> P (callback indata status r).1.1) ->
  forall inputs r, all_lines good inputs -> P r -> P (serve inputs r).1.1.
Proof.
  intros Hstart Hstop Hcancel Hcb.
  induction inputs as [| i rest IH]; intros r Hgood HP; [exact HP |].
  destruct i as [text env | indata status]; cbn [all_lines] in Hgood.
  - destruct Hgood as [Henv Hrest]. rewrite serve_line.
    destruct (loop_body_outcome text env r)
      as [(ev & -> & _) | [(v & Hl & Hj & Hd & ->) | (fields & Hl & Hj & ->)]].
    + specialize (IH r Hrest HP). by destruct (serve rest r) as [[r2 ev2] res].
    + exact HP.
    + destruct (answer_outcome (JObj fields) (lookup_field "type" fields)
                  (lookup_field "id" fields) env r)
        as (r' & ev & c & -> & _ & Hcall & ->).
      assert (HP' : P r').
      { destruct Hcall as [-> | [-> | [(p & ->) | (d & s & ch & ->)]]]; auto. }
      destruct (eq_str (lookup_field "type" fields) "shutdown"); [exact HP' |].
      specialize (IH r' Hrest HP'). by destruct (serve rest r') as [[r2 ev2] res].
  - rewrite serve_block. specialize (Hcb indata status r HP).
    destruct (callback indata status r) as [[r1 ev1] res1].
    specialize (IH r1 Hgood Hcb). by destruct (serve rest r1) as [[r2 ev2] res].
Qed.

(** X11. Whatever is sent to the worker and whatever the driver and the
    encoder do, when [main] ends (and so after every request, the input
    being any prefix) the recorder holds a stream handle only if it is
    active, and an active recorder has its sample rate and channel count
    set. *)
Theorem main_keeps_attached (inputs : list input) : attached (main inputs).1.1.
Proof.
  unfold main, bind, _write_json, emit.
  pose proof (serve_keeps attached (fun _ => True)
                (fun d s c env r _ => attached_start d s c env r)
                attached_stop (fun env r _ => attached_cancel env r)
                attached_callback inputs init) as H.
  assert (Hall : all_lines (fun _ => True) inputs).
  { clear H. induction inputs as [| [t e | b s] rest IH]; cbn; auto. }
  specialize (H Hall attached_init).
  by destruct (serve inputs init) as [[r2 ev2] res].
Qed.

(** X12. When the driver opens and starts every stream it is asked for, the
    recorder [main] ends with is active exactly when it holds a stream
    handle and has its sample rate and channel count set, whatever else
    fails (imports, abort, close, the encoder). *)
Theorem main_keeps_paired (inputs : list input) :
  all_lines opens inputs -> paired (main inputs).1.1.
Proof.
  intros Hall. unfold main, bind, _write_json, emit.
  pose proof (serve_keeps paired opens
                (fun d s c env r Ho => paired_start d s c env r (proj1 Ho) (proj2 Ho))
                paired_stop (fun env r _ => paired_cancel env r)
                paired_callback inputs init Hall paired_init) as H.
  by destruct (serve inputs init) as [[r2 ev2] res].
Qed.

(** X4. A [shutdown] request ends the loop from every state and under every
    driver: the teardown of [cancel] is run, one [shutdown_ack] is written,
    [main]'s loop returns 0 with the session inactive, its buffer empty and
    no stream held, and the rest of the input is never read. *)
Theorem shutdown_ends_loop
    (text : string) (fields : list (string * json)) (env : Env)
    (rest : list input) (r : Recorder) :
  strip text <> "" ->
  json_loads (strip text) = Some (JObj fields) ->
  lookup_field "type" fields = JStr "shutdown" ->
  exists ev,
    serve (Line text env :: rest) r =
      ({| _recording := false; _stream := None; _chunks := [];
          _sample_rate := _sample_rate r; _channels := _channels r |},
       ev ++ [Out (JObj [("type", JStr "shutdown_ack")])], Ok 0) /\
    quiet ev /\
    (forall s, _stream r = Some s -> In (AbortStream s) ev).
Proof.
  intros Hl Hj Ht. rewrite serve_line, (loop_body_parsed _ _ _ _ Hl Hj), Ht.
  unfold answer, try_except, dispatch, shutdown.
  cbn [eq_str String.eqb Ascii.eqb Bool.eqb].
  unfold bind at 1.
  assert (Hc : exists ev,
    cancel env r =
      ({| _recording := false; _stream := None; _chunks := [];
          _sample_rate := _sample_rate r; _channels := _channels r |}, ev, Ok tt) /\
    quiet ev /\ (forall s, _stream r = Some s -> In (AbortStream s) ev)).
  { destruct (cancel_returns env r) as (ev & Hcancel & Hq).
    exists ev. repeat split; auto.
    intros s Hs. revert Hcancel. run. rewrite Hs. cbn.
    destruct (abort_stream env), (close_stream env); cbn;
      intros E; inversion E; subst; cbn; auto. }
  destruct Hc as (ev & -> & Hq & Hin). cbn.
  exists ev. by repeat split.
Qed.

(** X2. A blank line, a line [json.loads] rejects, and an object whose
    [type] is not one of the four request types are skipped: nothing is
    written to stdout, no call is made to the driver or to the encoder, the
    recorder is as it was, and the loop goes on. *)
Theorem noise_is_skipped (line : string) (env : Env) (r : Recorder) :
  (strip line = "" \/ json_loads (strip line) = None \/
   exists fields, json_loads (strip line) = Some (JObj fields) /\
     eq_str (lookup_field "type" fields) "shutdown" = false /\
     eq_str (lookup_field "type" fields) "start" = false /\
     eq_str (lookup_field "type" fields) "stop" = false /\
     eq_str (lookup_field "type" fields) "cancel" = false) ->
  exists ev,
    loop_body line env r = (r, ev, Ok Next) /\
    (forall e, In e ev -> exists text, e = Log text) /\
    (strip line = "" -> ev = []).
Proof.
  unfold loop_body. intros [Hblank | H].
  { rewrite Hblank. cbn. exists []. repeat split; auto. intros e []. }
  destruct (String.eqb_spec (strip line) "") as [Hb | Hne].
  { exists []. repeat split; auto. intros e []. }
  destruct H as [-> | (fields & -> & H1 & H2 & H3 & H4)].
  { eexists. split; [reflexivity |]. split; [| congruence].
    intros e [<- | []]. by eexists. }
  unfold get. rewrite !bind_ret.
  unfold try_except, dispatch. rewrite H1, H2, H3, H4.
  eexists. split; [reflexivity |]. split; [| congruence].
  intros e [<- | []]. by eexists.
Qed.

(** X3. A line whose JSON value is not an object (a number, a string, a
    list, [null], a bool) ends the loop: [message.get] raises outside both
    [try] blocks, so the exception leaves [main] with nothing written and
    the recorder untouched, and the lines after it are never read. *)
Theorem not_an_object_ends_main
    (text : string) (v : json) (env : Env) (rest : list input) (r : Recorder) :
  strip text <> "" ->
  json_loads (strip text) = Some v ->
  is_dict v = false ->
  serve (Line text env :: rest) r = (r, [], Raise (no_get v)).
Proof.
  intros Hl Hj Hd. rewrite serve_line.
  destruct (loop_body_outcome text env r)
    as [(ev & H & _) | [(v' & _ & Hj' & _ & ->) | (fields & _ & Hj' & _)]].
  - revert H. unfold loop_body. rewrite (eqb_nonempty _ Hl), Hj.
    destruct v; try discriminate; cbn; discriminate.
  - congruence.
  - rewrite Hj in Hj'. inversion Hj'; subst. discriminate.
Qed.

(** X7. A [stop] request whose [wav_path] is absent, null, empty or
    otherwise falsy never reaches the recorder: the answer is [error] with
    the message [Missing wav_path], and a recording session goes on with its
    buffer and stream as they were. *)
Theorem stop_without_path
    (line : string) (fields : list (string * json)) (env : Env) (r : Recorder) :
  strip line <> "" ->
  json_loads (strip line) = Some (JObj fields) ->
  lookup_field "type" fields = JStr "stop" ->
  truthy (lookup_field "wav_path" fields) = false ->
  loop_body line env r =
    (r,
     [Log (format_exc (ValueError "Missing wav_path"));
      Out (JObj [("type", JStr "error"); ("id", lookup_field "id" fields);
                 ("error", JStr "Missing wav_path")])],
     Ok Next).
Proof.
  intros Hl Hj Ht Hp. rewrite (loop_body_parsed _ _ _ _ Hl Hj), Ht.
  unfold answer, try_except, dispatch. cbn [eq_str String.eqb Ascii.eqb Bool.eqb].
  unfold get. rewrite bind_ret, Hp. reflexivity.
Qed.

(** X8. A [start] request whose [sample_rate] or [channels] is truthy and
    not convertible by [int] (a list, an object, a string that is no
    integer, NaN, an infinity) is rejected before the recorder is called:
    the answer is [error] with the message of the exception of [int], the
    driver is not called and the recorder is as it was. *)
Theorem start_with_bad_number
    (line : string) (fields : list (string * json)) (env : Env) (r : Recorder) (e : exn) :
  strip line <> "" ->
  json_loads (strip line) = Some (JObj fields) ->
  lookup_field "type" fields = JStr "start" ->
  let rate := int (py_or (lookup_field "sample_rate" fields) (JInt 16000)) r in
  let channels := int (py_or (lookup_field "channels" fields) (JInt 1)) r in
  rate.2 = Raise e \/ ((exists n, rate.2 = Ok n) /\ channels.2 = Raise e) ->
  loop_body line env r =
    (r,
     [Log (format_exc e);
      Out (JObj [("type", JStr "error"); ("id", lookup_field "id" fields);
                 ("error", JStr (exn_msg e))])],
     Ok Next).
Proof.
  intros Hl Hj Ht rate channels H. subst rate channels.
  rewrite (loop_body_parsed _ _ _ _ Hl Hj), Ht.
  unfold answer, try_except, dispatch. cbn [eq_str String.eqb Ascii.eqb Bool.eqb].
  unfold get. rewrite !bind_ret.
  destruct (int_pure (py_or (lookup_field "sample_rate" fields) (JInt 16000)) r)
    as [res1 H1]; rewrite (bind_pure _ _ _ _ H1); rewrite H1 in H.
  destruct (int_pure (py_or (lookup_field "channels" fields) (JInt 1)) r)
    as [res2 H2]; rewrite H2 in H. cbn in H.
  destruct H as [-> | [[n ->] ->]]; [reflexivity |].
  rewrite bind_ret, (bind_pure _ _ _ _ H2). reflexivity.
Qed.

(** X9. When the encoder fails ([wavfile.write] or the import before it
    raises) in a [stop] on a recording session with a non-empty buffer, the
    recording is lost: [stop] raises the encoder's exception after the
    session was made inactive and its buffer emptied, the request is
    answered [error], and a second [stop] finds nothing to write and
    returns 0. *)
Theorem failed_write_loses_recording
    (r : Recorder) (wav_path : string) (env env' : Env) (e : exn)
    (fields : list (string * json)) (req_id : json) :
  _recording r = true ->
  _chunks r <> [] ->
  (import_stop env = Some e \/ (import_stop env = None /\ write_wav env = Some e)) ->
  lookup_field "wav_path" fields = JStr wav_path ->
  wav_path <> "" ->
  let after := {| _recording := false; _stream := None; _chunks := [];
                  _sample_rate := _sample_rate r; _channels := _channels r |} in
  (exists ev, stop wav_path env r = (after, ev, Raise e)) /\
  (exists ev,
     answer (JObj fields) (JStr "stop") req_id env r = (after, ev, Ok Next) /\
     responses ev = [JObj [("type", JStr "error"); ("id", req_id);
                           ("error", JStr (exn_msg e))]]) /\
  stop wav_path env' after = (after, [], Ok 0).
Proof.
  intros Hrec Hne Hfail Hpath Hwp after.
  assert (Hstop : exists ev,
    stop wav_path env r = (after, ev, Raise e) /\ responses ev = []).
  { subst after. run_to_teardown. rewrite Hrec. cbn.
    destruct (_chunks r) as [| c cs] eqn:Hc; [congruence |].
    match goal with |- context [teardown ?s env ?r'] =>
      destruct (teardown_returns s env r') as (ev & -> & Hq) end.
    destruct Hfail as [-> | [-> ->]]; eexists; (split; [reflexivity |]);
      rewrite ?app_nil_r, ?responses_app, (quiet_responses _ Hq); reflexivity. }
  destruct Hstop as (ev & Hstop & Hsilent).
  split; [by exists ev |]. split; [| by apply stop_inactive].
  unfold answer, try_except, dispatch. cbn [eq_str String.eqb Ascii.eqb Bool.eqb].
  unfold get. rewrite bind_ret, Hpath. cbn [truthy str].
  rewrite (eqb_nonempty _ Hwp). cbn [negb].
  unfold bind at 1. rewrite Hstop. cbn.
  eexists. split; [reflexivity |]. by rewrite responses_app, Hsilent.
Qed.

(** X10. [abort] and [close] sit in one [try]: when [abort] raises, [close]
    is never called.  [cancel] on a session that holds a stream then does
    exactly two things to the outside, the abort request and one log line,
    and [stop] makes no close request either; the handle is dropped from the
    session all the same. *)
Theorem abort_failure_skips_close
    (r : Recorder) (s : Stream) (env : Env) (e : exn) (wav_path : string) :
  _stream r = Some s ->
  abort_stream env = Some e ->
  cancel env r =
    ({| _recording := false; _stream := None; _chunks := [];
        _sample_rate := _sample_rate r; _channels := _channels r |},
     [AbortStream s; Log (format_exc e)], Ok tt) /\
  (forall s', ~ In (CloseStream s') (stop wav_path env r).1.2) /\
  _stream (stop wav_path env r).1.1 = (if _recording r then None else Some s).
Proof.
  intros Hs Ha. split; [run; by rewrite Hs, Ha |].
  destruct (_recording r) eqn:Hrec.
  2: { rewrite (stop_inactive _ _ _ Hrec). cbn. split; [tauto | exact Hs]. }
  run. rewrite Hrec. cbn. rewrite Hs. cbn. rewrite Ha. cbn.
  destruct (_chunks r) as [| c cs]; cbn.
  { split; [| reflexivity]. intros s' [H | [H | []]]; discriminate. }
  destruct (import_stop env); cbn.
  { split; [| reflexivity]. intros s' [H | [H | []]]; discriminate. }
  destruct (write_wav env); cbn;
    (split; [| reflexivity]); intros s' [H | [H | [H | []]]]; discriminate.
Qed.

(** [int] of a finite float below 1 in magnitude. *)
Lemma trunc_fraction (s : bool) (m : positive) (e : Z) :
  e < 0 -> Zpos m < 2 ^ (- e) -> trunc_finite s m e = 0.
Proof.
  intros He Hm. unfold trunc_finite.
  destruct e as [| k | k]; try lia.
  rewrite Z.shiftr_div_pow2 by lia.
  change (- Z.neg k) with (Z.pos k) in Hm.
  rewrite Z.div_small by lia. by destruct s.
Qed.

(** X13. The default rate replaces falsy values only.  A [sample_rate] that
    is a non-zero float below 1 in magnitude is truthy and [int] truncates
    it to 0: the stream is opened with [samplerate=0] and the session's rate
    is 0; [stop] then writes the file with rate 16000, the default of
    [self._sample_rate or 16000]. *)
Theorem fractional_rate_opens_at_zero
    (r : Recorder) (fields : list (string * json)) (req_id : json) (env env' : Env)
    (s : bool) (m : positive) (e : Z)
    (blocks : list (block * option string)) (wav_path : string) :
  lookup_field "sample_rate" fields = JFloat (S754_finite s m e) ->
  e < 0 -> Zpos m < 2 ^ (- e) ->
  truthy (lookup_field "channels" fields) = false ->
  _recording r = false ->
  import_start env = None -> open_stream env = None -> start_stream env = None ->
  blocks <> [] ->
  import_stop env' = None -> write_wav env' = None ->
  let device := lookup_field "device" fields in
  dispatch (JObj fields) (JStr "start") req_id env r =
    (started device 0 1,
     [OpenStream device 0 1;
      StartStream {| st_device := device; st_samplerate := 0; st_channels := 1 |};
      Out (JObj [("type", JStr "started"); ("id", req_id)])],
     Ok Next) /\
  last (stop wav_path env' (deliver blocks (started device 0 1)).1.1).1.2 =
    Some (WriteWav wav_path 16000 (map (map to_int16) (concat (map fst blocks)))).
Proof.
  intros Hrate He Hm Hch Hrec Himp Hopen Hstart Hblocks Himp' Hw device.
  split.
  - unfold dispatch. cbn [eq_str String.eqb Ascii.eqb Bool.eqb].
    unfold get. rewrite !bind_ret. unfold py_or at 1. rewrite Hrate. cbn [truthy int].
    rewrite (trunc_fraction s m e He Hm), !bind_ret.
    unfold py_or. rewrite Hch. cbn [int]. rewrite bind_ret.
    run. rewrite Hrec, Himp, Hopen, Hstart. reflexivity.
  - destruct (deliver_recording blocks (started device 0 1) eq_refl) as [ev Hdel].
    rewrite Hdel. cbn [fst].
    destruct (stop_recording_nonempty wav_path env'
                (with_chunks (started device 0 1) ([] ++ map fst blocks)))
      as (ev' & Hstop & _); auto.
    { cbn. destruct blocks; [congruence | discriminate]. }
    cbn in Hstop |- *. rewrite Hstop. cbn. apply last_snoc.
Qed.

(** X16. Blocks delivered while no session is active are dropped: the
    recorder is as it was, whatever the number of blocks, and nothing but
    the status lines is logged; a [stop] afterwards still returns 0. *)
Theorem blocks_dropped_when_inactive
    (blocks : list (block * option string)) (r : Recorder) (wav_path : string) (env : Env) :
  _recording r = false ->
  (exists ev,
     deliver blocks r = (r, ev, Ok tt) /\
     length ev = length (filter (fun b => is_Some b.2) blocks) /\
     forall e, In e ev -> exists text, e = Log text) /\
  stop wav_path env (deliver blocks r).1.1 = (r, [], Ok 0).
Proof.
  intros Hrec.
  assert (H : exists ev,
    deliver blocks r = (r, ev, Ok tt) /\
    length ev = length (filter (fun b => is_Some b.2) blocks) /\
    forall e, In e ev -> exists text, e = Log text).
  { induction blocks as [| [indata status] rest (ev & IH & Hlen & Hlog)].
    { exists []. repeat split; auto. intros e []. }
    cbn [deliver]. unfold bind at 1.
    assert (Hcb : callback indata status r =
                    (r, match status with
                        | Some text => [Log ("[stt:audio-worker] Status: " +:+ text)]
                        | None => []
                        end, Ok tt)).
    { run. destruct status; cbn; rewrite Hrec; reflexivity. }
    rewrite Hcb, IH. eexists. split; [reflexivity |].
    destruct status as [text |].
    - rewrite filter_cons_True by (cbn; eauto). cbn. split; [by rewrite Hlen |].
      intros e [<- | Hin]; [by eexists | auto].
    - rewrite filter_cons_False by (cbn; intros [x Hx]; discriminate).
      cbn. split; [exact Hlen | exact Hlog]. }
  split; [exact H |]. destruct H as (ev & -> & _). by apply stop_inactive.
Qed.

(** * More of the two threads *)

Lemma run_ctl_idle n : forall c, main_at c = Idle -> run_ctl n c = c.
Proof.
  induction n as [| n IH]; intros c Hidle; [reflexivity |].
  cbn [run_ctl]. unfold ctl_step. rewrite Hidle. by apply IH.
Qed.

Lemma run_ctl_add n k : forall c, run_ctl (n + k) c = run_ctl k (run_ctl n c).
Proof. induction n as [| n IH]; intros c; [reflexivity |]. cbn. apply IH. Qed.

(** [start] is at the opening of the stream: from [sd.InputStream] at line
    52 to [self._stream = stream] at line 60. *)
Definition opening (c : Config) : Prop :=
  match main_at c with
  | InStart L52 _ _ _ _ | InStart (L59 _) _ _ _ _ | InStart (L60 _) _ _ _ _ => True
  | _ => False
  end.

Definition flag_set_while_opening (c : Config) : Prop :=
  opening c -> m_recording (mem c) = true.

Lemma step_keeps_flag mv c c' :
  step mv c = Some c' -> flag_set_while_opening c -> flag_set_while_opening c'.
Proof.
  unfold flag_set_while_opening, opening.
  destruct c as [m main audio tr outs]. cbn [main_at mem]. intros Hstep H.
  destruct mv as [q | | indata status |]; cbn in Hstep.
  - destruct main; inversion Hstep; subst; cbn. by destruct q.
  - destruct main as [| pc d s ch e | pc p e | pc e];
      inversion Hstep; subst; unfold ctl_step; cbn [main_at mem audio_at trace outcomes].
    + destruct pc; cbn [start_step];
        repeat match goal with
               | |- context [if ?x then _ else _] => destruct x
               | |- context [match ?x with Some _ => _ | None => _ end] => destruct x
               end; cbn; tauto.
    + destruct (stop_step p e pc m) as [[m' ev] [pc' | out]]; cbn; tauto.
    + destruct (cancel_step e pc m) as [[m' ev] [pc' | out]]; cbn; tauto.
  - destruct audio; inversion Hstep; subst; exact H.
  - destruct audio as [pc |]; [| discriminate].
    destruct pc; cbn in Hstep; inversion Hstep; subst; cbn; exact H.
Qed.

Lemma exec_keeps_flag schedule : forall c c',
  flag_set_while_opening c -> exec schedule c = Some c' -> flag_set_while_opening c'.
Proof.
  induction schedule as [| mv rest IH]; intros c c' H Hexec; cbn in Hexec.
  - by inversion Hexec; subst.
  - destruct (step mv c) as [c1 |] eqn:Hstep; [| discriminate].
    eapply IH; [| exact Hexec]. eapply step_keeps_flag; eauto.
Qed.

(** X15. [start] sets the active flag before it opens the stream.  In every
    state the two threads can reach from the start of the worker, while
    [start] is between [sd.InputStream] (line 52) and
    [self._stream = stream] (line 60) the flag is set; so a block the new
    stream delivers then, before [start] has returned, is appended to the
    session's buffer and not dropped. *)
Theorem early_block_is_kept
    (schedule : list move) (c : Config) (indata : block) (status : option string) :
  exec schedule boot = Some c ->
  opening c ->
  audio_at c = None ->
  m_recording (mem c) = true /\
  exists c',
    exec [Fire indata status; Cb; Cb; Cb; Cb] c = Some c' /\
    main_at c' = main_at c /\
    deref (m_heap (mem c')) (m_chunks (mem c')) =
      deref (m_heap (mem c)) (m_chunks (mem c)) ++ [indata].
Proof.
  intros Hexec Hopen Hidle.
  assert (Hflag : m_recording (mem c) = true).
  { apply (exec_keeps_flag schedule boot c); auto. intros []. }
  split; [exact Hflag |].
  pose proof (reachable_bound schedule boot c boot_bound Hexec) as Hbound.
  destruct (callback_alone c indata status Hidle Hbound) as (c' & Hrun & _ & Hmain & Hview & _).
  rewrite Hflag in Hrun. exists c'. split; [exact Hrun |]. split; [exact Hmain |].
  destruct (callback_recording indata status (view (mem c)) Hflag) as [ev Hcb].
  rewrite Hcb in Hview. cbn in Hview.
  change (deref (m_heap (mem c')) (m_chunks (mem c'))) with (_chunks (view (mem c'))).
  by rewrite Hview.
Qed.

(** * A session on the two threads *)

(** One delivery on an active session, from the invocation of the callback
    to its return; the deliveries of some blocks, one after the other. *)
Definition delivery (b : block * option string) : list move :=
  [Fire b.1 b.2; Cb; Cb; Cb; Cb].

Fixpoint deliveries (blocks : list (block * option string)) : list move :=
  match blocks with
  | [] => []
  | b :: rest => delivery b ++ deliveries rest
  end.

(** The blocks a schedule has the driver deliver. *)
Fixpoint fired (schedule : list move) : list block :=
  match schedule with
  | [] => []
  | Fire indata _ :: rest => indata :: fired rest
  | _ :: rest => fired rest
  end.

Lemma exec_app s1 : forall s2 c,
  exec (s1 ++ s2) c = match exec s1 c with Some c1 => exec s2 c1 | None => None end.
Proof.
  induction s1 as [| mv rest IH]; intros s2 c; [reflexivity |].
  cbn [app exec]. destruct (step mv c); [apply IH | reflexivity].
Qed.

Lemma view_recording m : _recording (view m) = m_recording m.
Proof. reflexivity. Qed.

(** Deliveries that each run to their return do to the buffer what the
    callback called once per block does. *)
Lemma deliveries_run blocks : forall c,
  audio_at c = None ->
  chunks_bound (mem c) ->
  m_recording (mem c) = true ->
  exists c1,
    exec (deliveries blocks) c = Some c1 /\
    audio_at c1 = None /\
    main_at c1 = main_at c /\
    chunks_bound (mem c1) /\
    view (mem c1) = (deliver blocks (view (mem c))).1.1.
Proof.
  induction blocks as [| [indata status] rest IH]; intros c Hidle Hbound Hrec.
  { exists c. by repeat split. }
  destruct (callback_alone c indata status Hidle Hbound)
    as (c' & Hrun & Hidle' & Hmain & Hview & _).
  rewrite Hrec in Hrun.
  assert (Hbound' : chunks_bound (mem c')) by (eapply reachable_bound; eauto).
  destruct (callback_recording indata status (view (mem c)) Hrec) as [ev Hcb].
  assert (Hrec' : m_recording (mem c') = true).
  { rewrite <- view_recording, Hview, Hcb. exact Hrec. }
  destruct (IH c' Hidle' Hbound' Hrec') as (c1 & Hrest & Hidle1 & Hmain1 & Hbound1 & Hview1).
  exists c1. cbn [deliveries]. rewrite exec_app. unfold delivery. cbn [fst snd].
  rewrite Hrun. repeat split; auto; [congruence |].
  rewrite Hview1, Hview, Hcb. cbn [deliver fst]. unfold bind at 1. rewrite Hcb.
  by destruct (deliver rest (with_chunks (view (mem c)) (_chunks (view (mem c)) ++ [indata])))
    as [[r2 ev2] res].
Qed.

(** C1, as the code has it.  A session on the two threads: a [start] that
    has returned, one or more blocks whose deliveries each run to their
    return before [stop] is called, then the [stop] of a request with a
    non-empty [wav_path], run with the audio thread standing still (the
    encoder's import and write return).  [stop] returns the sum of the
    frame counts of the blocks, the last thing it does is write the file
    with those blocks in arrival order, and the request is answered
    [stopped] with that sum as its [frames]. *)
Theorem stop_counts_completed_deliveries
    (c : Config) (r0 : Recorder) (device : json) (sample_rate channels : Z)
    (env0 : Env) (ev1 : list event) (blocks : list (block * option string))
    (line wav_path : string) (fields : list (string * json)) (env : Env) :
  main_at c = Idle ->
  audio_at c = None ->
  chunks_bound (mem c) ->
  start device sample_rate channels env0 r0 = (view (mem c), ev1, Ok tt) ->
  blocks <> [] ->
  strip line <> "" ->
  json_loads (strip line) = Some (JObj fields) ->
  lookup_field "type" fields = JStr "stop" ->
  lookup_field "wav_path" fields = JStr wav_path ->
  wav_path <> "" ->
  import_stop env = None ->
  write_wav env = None ->
  let total := total_frames (map fst blocks) in
  let pcm := map (map to_int16) (concat (map fst blocks)) in
  exists c1 c2,
    exec (deliveries blocks) c = Some c1 /\
    audio_at c1 = None /\
    step (Call (Stop wav_path env)) c1 = Some c2 /\
    main_at (run_ctl 17 c2) = Idle /\
    last (outcomes (run_ctl 17 c2)) = Some (Returned (Some total)) /\
    last (trace (run_ctl 17 c2)) =
      Some (WriteWav wav_path (rate_or_default (Some sample_rate)) pcm) /\
    exists r3 ev,
      loop_body line env (view (mem c1)) = (r3, ev, Ok Next) /\
      responses ev =
        [JObj [("type", JStr "stopped"); ("id", lookup_field "id" fields);
               ("wav_path", JStr wav_path); ("frames", JInt total)]].
Proof.
  intros Hmain Hidle Hbound Hstart Hblocks Hline Hjson Htype Hpath Hne Himp Hw total pcm.
  assert (Hrec : m_recording (mem c) = true).
  { destruct (start_returns _ _ _ _ _ _ _ Hstart) as [_ Hv].
    by rewrite <- view_recording, Hv. }
  destruct (deliveries_run blocks c Hidle Hbound Hrec)
    as (c1 & Hrun & Hidle1 & Hmain1 & Hbound1 & Hview1).
  rewrite Hmain in Hmain1.
  destruct (stop_alone c1 wav_path env Hmain1 Hbound1) as (c2 & Hcall & Hstop).
  cbv zeta in Hstop. remember (run_ctl 17 c2) as c3 eqn:Hc3.
  destruct Hstop as (Hdone & _ & _ & Htrace & Hout).
  destruct (stop_counts_delivered_frames r0 device sample_rate channels env0
              (view (mem c)) ev1 blocks line wav_path fields env
              Hstart Hblocks Hline Hjson Htype Hpath Hne Himp Hw)
    as ((r3 & ev & Hseq & Hlast) & Hanswer).
  rewrite <- Hview1 in Hseq, Hanswer.
  rewrite Hseq in Htrace, Hout. cbn in Htrace, Hout.
  exists c1, c2. rewrite <- Hc3. repeat split; auto.
  - rewrite Hout. apply last_snoc.
  - rewrite Htrace, last_app. fold pcm in Hlast. by rewrite Hlast.
Qed.
End Worker.

(** * The properties at concrete inputs *)

#[local] Existing Instance demo.

(** Two blocks, of two frames and of one frame, one channel. *)
Definition two_blocks : list (block * option string) :=
  [([[1]; [2]], None); ([[3]], None)].

(** A concrete session seen from the main thread: [start], two blocks, then
    the [stop] line. *)
Lemma stop_counts_delivered_frames_witness :
  let r2 := (deliver two_blocks (started JNull 16000 1)).1.1 in
  (exists r3 ev,
     stop "out.wav" calm r2 = (r3, ev, Ok 3) /\
     last ev = Some (WriteWav "out.wav" 16000 [[1]; [2]; [3]])) /\
  (exists r3 ev,
     loop_body stop_line calm r2 = (r3, ev, Ok Next) /\
     responses ev =
       [JObj [("type", JStr "stopped"); ("id", JStr "1");
              ("wav_path", JStr "out.wav"); ("frames", JInt 3)]]).
Proof.
  apply (stop_counts_delivered_frames init JNull 16000 1 calm
           (started JNull 16000 1)
           [OpenStream JNull 16000 1;
            StartStream {| st_device := JNull; st_samplerate := 16000; st_channels := 1 |}]
           two_blocks stop_line "out.wav"
           [("type", JStr "stop"); ("wav_path", JStr "out.wav"); ("id", JStr "1")]
           calm).
  - reflexivity.
  - discriminate.
  - vm_compute. discriminate.
  - reflexivity.
  - reflexivity.
  - reflexivity.
  - discriminate.
  - reflexivity.
  - reflexivity.
Defined.

(** C6 at a concrete input: a [stop] request on the initial session. *)
Lemma stop_when_inactive_witness :
  stop "out.wav" calm init = (init, [], Ok 0) /\
  dispatch (JObj [("type", JStr "stop"); ("wav_path", JStr "out.wav")])
           (JStr "stop") JNull calm init =
    (init, [Out (JObj [("type", JStr "stopped"); ("id", JNull);
                       ("wav_path", JStr "out.wav"); ("frames", JInt 0)])], Ok Next) /\
  stop "out.wav" calm init = (init, [], Ok 0) /\
  (let r1 := (cancel calm (started JNull 16000 1)).1.1 in
   _chunks r1 = [] /\ stop "out.wav" calm r1 = (r1, [], Ok 0)) /\
  (let r2 := (stop "first.wav" calm (started JNull 16000 1)).1.1 in
   stop "out.wav" calm r2 = (r2, [], Ok 0)).
Proof.
  apply (stop_when_inactive init (started JNull 16000 1) "out.wav" "first.wav" calm calm
           [("type", JStr "stop"); ("wav_path", JStr "out.wav")] JNull).
  - reflexivity.
  - reflexivity.
  - discriminate.
Defined.

(** C4 at a concrete input: a second [start] line on a recording session. *)
Lemma start_while_recording_witness :
  let r := (deliver two_blocks (started JNull 16000 1)).1.1 in
  start JNull 44100 2 calm r = (r, [], Raise (RuntimeError "Already recording")) /\
  exists e,
    loop_body start_line calm r =
      (r, [Log (format_exc e);
           Out (JObj [("type", JStr "error"); ("id", JStr "7");
                      ("error", JStr (exn_msg e))])], Ok Next).
Proof.
  apply (start_while_recording (deliver two_blocks (started JNull 16000 1)).1.1
           JNull 44100 2 calm start_line [("type", JStr "start"); ("id", JStr "7")]).
  - reflexivity.
  - vm_compute. discriminate.
  - reflexivity.
  - reflexivity.
Defined.

(** C10 at a concrete input: [sample_rate] is 0 and [channels] is absent. *)
Lemma start_defaults_witness :
  dispatch (JObj [("type", JStr "start"); ("sample_rate", JInt 0)])
           (JStr "start") JNull calm init =
    (started JNull 16000 1,
     [OpenStream JNull 16000 1;
      StartStream {| st_device := JNull; st_samplerate := 16000; st_channels := 1 |};
      Out (JObj [("type", JStr "started"); ("id", JNull)])],
     Ok Next).
Proof.
  apply (start_defaults init [("type", JStr "start"); ("sample_rate", JInt 0)] JNull calm);
    reflexivity.
Defined.

(** C2 on the code, at the line [{"type": "shutdown", "id": "9"}]: [main]
    writes [ready], then a [shutdown_ack] that carries no id, and returns 0;
    the same worker answers the [stop] line with its id. *)
Theorem shutdown_ack_drops_id :
  let run := main [Line shutdown_line calm] in
  run.2 = Ok 0 /\
  responses run.1.2 =
    [JObj [("type", JStr "ready")]; JObj [("type", JStr "shutdown_ack")]] /\
  map id_of (responses run.1.2) = [JNull; JNull] /\
  map id_of (responses (main [Line stop_line calm]).1.2) = [JNull; JStr "1"].
Proof. vm_compute. repeat split. Qed.

(** The session [start] leaves, as the two threads see it, and the main
    thread entering [stop]. *)
Definition recording_config : Config :=
  {| mem := {| m_recording := true;
               m_stream := Some {| st_device := JNull; st_samplerate := 16000;
                                   st_channels := 1 |};
               m_chunks := 1%nat;
               m_sample_rate := Some 16000; m_channels := Some 1;
               m_heap := [[]; []] |};
     main_at := Idle; audio_at := None;
     trace := [OpenStream JNull 16000 1;
               StartStream {| st_device := JNull; st_samplerate := 16000;
                              st_channels := 1 |}];
     outcomes := [Returned None] |}.

Definition start_schedule : list move :=
  Call (Start JNull 16000 1 calm) :: repeat Ctl 9.

Lemma recording_config_reached : exec start_schedule boot = Some recording_config.
Proof. reflexivity. Qed.

(** C3 as stated fails: in the [stop] that follows the [start] above, after
    six statements the session's buffer is a new list and nothing has been
    asked of the driver since the stream was started. *)
Lemma stop_order_counterexample :
  exists c0,
    exec (start_schedule ++ [Call (Stop "out.wav" calm)]) boot = Some c0 /\
    ~ teardown_before_take c0.
Proof.
  match eval vm_compute in
    (exec (start_schedule ++ [Call (Stop "out.wav" calm)]) boot) with
  | Some ?c => exists c
  end.
  split; [vm_compute; reflexivity |].
  intros H. destruct (H 6%nat) as [s Hin]; [vm_compute; discriminate |].
  vm_compute in Hin. intuition discriminate.
Qed.

(** C3, amended, at the same [stop]. *)
Lemma stop_takes_buffer_before_teardown_witness :
  let s := {| st_device := JNull; st_samplerate := 16000; st_channels := 1 |} in
  let c0 := {| mem := mem recording_config; main_at := InStop L63 "out.wav" calm;
               audio_at := None; trace := []; outcomes := [] |} in
  m_recording (mem (run_ctl 2 c0)) = false /\
  trace (run_ctl 6 c0) = [] /\
  m_chunks (mem (run_ctl 6 c0)) = 2%nat /\
  trace (run_ctl 8 c0) = [AbortStream s] /\
  trace (run_ctl 9 c0) = [AbortStream s; CloseStream s].
Proof.
  pose proof (stop_takes_buffer_before_teardown (mem recording_config)
                {| st_device := JNull; st_samplerate := 16000; st_channels := 1 |}
                "out.wav" calm None [] [] eq_refl eq_refl) as H.
  cbv zeta in H. destruct H as ((H2 & _) & H6 & _ & (_ & H8) & (_ & H9)).
  cbv zeta. rewrite H2, H6, H8, H9. repeat split.
Defined.

(** The callback reads the flag as set; [stop] then clears the flag, takes
    the buffer and makes the new one. *)
Definition late_schedule : list move :=
  start_schedule ++
  [Fire [[1]] None; Cb; Cb; Call (Stop "out.wav" calm)] ++ repeat Ctl 6.

(** C7 as stated fails: after that schedule the flag is cleared and [stop]
    holds the buffer, and the two remaining statements of the callback
    append its block to the session's new buffer. *)
Lemma late_append_counterexample :
  exists c,
    exec late_schedule boot = Some c /\
    m_recording (mem c) = false /\
    main_at c = InStop (L72 (m_stream (mem recording_config)) 1%nat) "out.wav" calm /\
    (exists c', exec [Cb; Cb] c = Some c' /\
                deref (m_heap (mem c')) (m_chunks (mem c')) = [[[1]]]) /\
    ~ appends_excluded c.
Proof.
  match eval vm_compute in (exec late_schedule boot) with
  | Some ?c => exists c
  end.
  split; [vm_compute; reflexivity |]. split; [reflexivity |]. split; [reflexivity |].
  split.
  - eexists. split; vm_compute; reflexivity.
  - intros H.
    match type of H with appends_excluded ?c =>
      match eval vm_compute in (exec [Cb; Cb] c) with
      | Some ?c' => specialize (H [Cb; Cb] c')
      end
    end.
    assert (Hno : calls_no_start [Cb; Cb])
      by (intros d s ch e [Heq | [Heq | []]]; discriminate).
    specialize (H Hno). vm_compute in H. specialize (H eq_refl). discriminate.
Qed.

(** C7, amended, at the same point: one block more, and no more. *)
Lemma at_most_one_late_append_witness :
  exists c c',
    exec late_schedule boot = Some c /\
    exec [Cb; Cb; Fire [[2]] None; Cb; Cb; Ctl; Ctl] c = Some c' /\
    m_recording (mem c') = false /\
    (blocks_held c <= blocks_held c' <= blocks_held c + 1)%nat.
Proof.
  match eval vm_compute in (exec late_schedule boot) with
  | Some ?c =>
      match eval vm_compute in
        (exec [Cb; Cb; Fire [[2]] None; Cb; Cb; Ctl; Ctl] c) with
      | Some ?c' =>
          exists c, c';
          pose proof (at_most_one_late_append c c'
                        [Cb; Cb; Fire [[2]] None; Cb; Cb; Ctl; Ctl]) as H
      end
  end.
  split; [vm_compute; reflexivity |]. split; [vm_compute; reflexivity |].
  destruct H as (Hrec & Hle & _).
  - reflexivity.
  - exact I.
  - intros d s ch e Hin. vm_compute in Hin. intuition discriminate.
  - vm_compute. reflexivity.
  - split; [exact Hrec | exact Hle].
Defined.

(** The failed open on the protocol: a [start] line whose stream the driver
    does not open is answered [error]; the next [start] line, which the
    driver would serve, is refused, and the session is active with no
    stream. *)
Lemma failed_start_blocks_next_start :
  let e := Exn "PortAudioError" "Error opening InputStream" in
  let run := main [Line start_line (open_fails e); Line start_line calm] in
  responses run.1.2 =
    [JObj [("type", JStr "ready")];
     JObj [("type", JStr "error"); ("id", JStr "7");
           ("error", JStr "Error opening InputStream")];
     JObj [("type", JStr "error"); ("id", JStr "7");
           ("error", JStr "Already recording")]] /\
  _recording run.1.1 = true /\
  _stream run.1.1 = None.
Proof. vm_compute. repeat split. Qed.

(** * More properties at concrete inputs *)

(** A run time that reads a few more lines. *)
Definition cancel_line : string := json_text "{'type': 'cancel', 'id': 3}".
Definition ping_line : string := json_text "{'type': 'ping', 'id': 4}".
Definition number_line : string := "42".
Definition pathless_stop_line : string := json_text "{'type': 'stop', 'id': '2'}".
Definition bad_start_line : string :=
  json_text "{'type': 'start', 'sample_rate': [44100], 'id': 5}".

Definition wide_loads (line : string) : option json :=
  if String.eqb line cancel_line then
    Some (JObj [("type", JStr "cancel"); ("id", JInt 3)])
  else if String.eqb line ping_line then
    Some (JObj [("type", JStr "ping"); ("id", JInt 4)])
  else if String.eqb line number_line then Some (JInt 42)
  else if String.eqb line pathless_stop_line then
    Some (JObj [("type", JStr "stop"); ("id", JStr "2")])
  else if String.eqb line bad_start_line then
    Some (JObj [("type", JStr "start"); ("sample_rate", JArr [JInt 44100]);
                ("id", JInt 5)])
  else demo_loads line.

Definition wide : Runtime :=
  {| strip := fun line => line;
     json_loads := wide_loads;
     int_of_str := fun _ => None;
     int_error := fun _ => Exn "TypeError" "int() argument must be a string or a real number";
     str_of := fun _ => "";
     repr := fun _ => "";
     format_exc := fun e => exn_class e +:+ ": " +:+ exn_msg e;
     sample := Z;
     to_int16 := fun x => x |}.

(** X12 at a concrete input: a session recorded and stopped. *)
Lemma main_keeps_paired_witness :
  paired (main [Line start_line calm; Block [[1]] None; Line stop_line calm]).1.1.
Proof.
  apply main_keeps_paired. cbn. unfold opens. cbn. repeat split.
Defined.

(** X4 at a concrete input: [shutdown] while recording, a line behind it. *)
Lemma shutdown_ends_loop_witness :
  exists ev,
    serve (Line shutdown_line calm :: [Line start_line calm]) (started JNull 16000 1) =
      ({| _recording := false; _stream := None; _chunks := [];
          _sample_rate := Some 16000; _channels := Some 1 |},
       ev ++ [Out (JObj [("type", JStr "shutdown_ack")])], Ok 0) /\
    quiet ev /\
    (forall s, _stream (started JNull 16000 1) = Some s -> In (AbortStream s) ev).
Proof.
  apply (shutdown_ends_loop shutdown_line
           [("type", JStr "shutdown"); ("id", JStr "9")] calm
           [Line start_line calm] (started JNull 16000 1)).
  - vm_compute. discriminate.
  - reflexivity.
  - reflexivity.
Defined.

(** X2 at a concrete input: a message of an unknown type, while recording. *)
Lemma noise_is_skipped_witness :
  exists ev,
    loop_body (rt := wide) ping_line calm (started JNull 16000 1) =
      (started JNull 16000 1, ev, Ok Next) /\
    (forall e, In e ev -> exists text, e = Log text) /\
    (ping_line = "" -> ev = []).
Proof.
  apply (noise_is_skipped (rt := wide) ping_line calm (started JNull 16000 1)).
  right. right. exists [("type", JStr "ping"); ("id", JInt 4)].
  repeat split; reflexivity.
Defined.

(** X3 at a concrete input: the line [42]. *)
Lemma not_an_object_ends_main_witness :
  serve (rt := wide) (Line number_line calm :: [Line stop_line calm])
        (started JNull 16000 1) =
    (started JNull 16000 1, [], Raise (no_get (JInt 42))).
Proof.
  apply (not_an_object_ends_main (rt := wide) number_line (JInt 42) calm
           [Line stop_line calm] (started JNull 16000 1)).
  - vm_compute. discriminate.
  - reflexivity.
  - reflexivity.
Defined.

(** X7 at a concrete input: a [stop] line with no [wav_path], while
    recording. *)
Lemma stop_without_path_witness :
  loop_body (rt := wide) pathless_stop_line calm (started JNull 16000 1) =
    (started JNull 16000 1,
     [Log "ValueError: Missing wav_path";
      Out (JObj [("type", JStr "error"); ("id", JStr "2");
                 ("error", JStr "Missing wav_path")])],
     Ok Next).
Proof.
  apply (stop_without_path (rt := wide) pathless_stop_line
           [("type", JStr "stop"); ("id", JStr "2")] calm (started JNull 16000 1)).
  - vm_compute. discriminate.
  - reflexivity.
  - reflexivity.
  - reflexivity.
Defined.

(** X8 at a concrete input: [sample_rate] is the list [[44100]]. *)
Lemma start_with_bad_number_witness :
  loop_body (rt := wide) bad_start_line calm init =
    (init,
     [Log "TypeError: int() argument must be a string or a real number";
      Out (JObj [("type", JStr "error"); ("id", JInt 5);
                 ("error", JStr "int() argument must be a string or a real number")])],
     Ok Next).
Proof.
  apply (start_with_bad_number (rt := wide) bad_start_line
           [("type", JStr "start"); ("sample_rate", JArr [JInt 44100]); ("id", JInt 5)]
           calm init
           (Exn "TypeError" "int() argument must be a string or a real number")).
  - vm_compute. discriminate.
  - reflexivity.
  - reflexivity.
  - left. reflexivity.
Defined.

(** The environment in which [wavfile.write] raises [e]. *)
Definition write_fails (e : exn) : Env :=
  {| import_start := None; open_stream := None; start_stream := None;
     abort_stream := None; close_stream := None; import_stop := None;
     write_wav := Some e |}.

(** X9 at a concrete input: two blocks recorded, a path that cannot be
    written. *)
Lemma failed_write_loses_recording_witness :
  let e := Exn "PermissionError" "Permission denied" in
  let r := (deliver two_blocks (started JNull 16000 1)).1.1 in
  let after := {| _recording := false; _stream := None; _chunks := [];
                  _sample_rate := Some 16000; _channels := Some 1 |} in
  (exists ev, stop "out.wav" (write_fails e) r = (after, ev, Raise e)) /\
  (exists ev,
     answer (JObj [("type", JStr "stop"); ("wav_path", JStr "out.wav")])
            (JStr "stop") JNull (write_fails e) r = (after, ev, Ok Next) /\
     responses ev = [JObj [("type", JStr "error"); ("id", JNull);
                           ("error", JStr "Permission denied")]]) /\
  stop "out.wav" calm after = (after, [], Ok 0).
Proof.
  apply (failed_write_loses_recording
           (deliver two_blocks (started JNull 16000 1)).1.1 "out.wav"
           (write_fails (Exn "PermissionError" "Permission denied")) calm
           (Exn "PermissionError" "Permission denied")
           [("type", JStr "stop"); ("wav_path", JStr "out.wav")] JNull).
  - reflexivity.
  - vm_compute. discriminate.
  - right. split; reflexivity.
  - reflexivity.
  - discriminate.
Defined.

(** The environment in which [stream.abort] raises [e]. *)
Definition abort_fails (e : exn) : Env :=
  {| import_start := None; open_stream := None; start_stream := None;
     abort_stream := Some e; close_stream := None; import_stop := None;
     write_wav := None |}.

(** X10 at a concrete input. *)
Lemma abort_failure_skips_close_witness :
  let e := Exn "PortAudioError" "Unanticipated host error" in
  let s := {| st_device := JNull; st_samplerate := 16000; st_channels := 1 |} in
  let r := started JNull 16000 1 in
  cancel (abort_fails e) r =
    ({| _recording := false; _stream := None; _chunks := [];
        _sample_rate := Some 16000; _channels := Some 1 |},
     [AbortStream s; Log "PortAudioError: Unanticipated host error"], Ok tt) /\
  (forall s', ~ In (CloseStream s') (stop "out.wav" (abort_fails e) r).1.2) /\
  _stream (stop "out.wav" (abort_fails e) r).1.1 = None.
Proof.
  exact (abort_failure_skips_close (started JNull 16000 1)
           {| st_device := JNull; st_samplerate := 16000; st_channels := 1 |}
           (abort_fails (Exn "PortAudioError" "Unanticipated host error"))
           (Exn "PortAudioError" "Unanticipated host error") "out.wav"
           eq_refl eq_refl).
Defined.

(** X13 at a concrete input: [sample_rate] is 0.5, that is 2^52 * 2^-53. *)
Lemma fractional_rate_opens_at_zero_witness :
  let fields := [("type", JStr "start");
                 ("sample_rate", JFloat (S754_finite false 4503599627370496 (-53)))] in
  dispatch (JObj fields) (JStr "start") JNull calm init =
    (started JNull 0 1,
     [OpenStream JNull 0 1;
      StartStream {| st_device := JNull; st_samplerate := 0; st_channels := 1 |};
      Out (JObj [("type", JStr "started"); ("id", JNull)])],
     Ok Next) /\
  last (stop "out.wav" calm (deliver two_blocks (started JNull 0 1)).1.1).1.2 =
    Some (WriteWav "out.wav" 16000 [[1]; [2]; [3]]).
Proof.
  apply (fractional_rate_opens_at_zero init
           [("type", JStr "start");
            ("sample_rate", JFloat (S754_finite false 4503599627370496 (-53)))]
           JNull calm calm false 4503599627370496 (-53) two_blocks "out.wav");
    try reflexivity.
  discriminate.
Defined.

(** Two blocks, the first delivered with a status flag. *)
Definition flagged_blocks : list (block * option string) :=
  [([[1]], Some "input overflow"); ([[2]], None)].

(** X16 at a concrete input: two blocks, one with a status, on the initial
    session. *)
Lemma blocks_dropped_when_inactive_witness :
  (exists ev,
     deliver flagged_blocks init = (init, ev, Ok tt) /\
     length ev = 1%nat /\
     forall e, In e ev -> exists text, e = Log text) /\
  stop "out.wav" calm (deliver flagged_blocks init).1.1 = (init, [], Ok 0).
Proof.
  exact (blocks_dropped_when_inactive flagged_blocks init "out.wav" calm eq_refl).
Defined.

(** X15 at a concrete input: [start] has run through [stream.start()] and
    has not stored the handle yet. *)
Lemma early_block_is_kept_witness :
  exists c c',
    exec (Call (Start JNull 16000 1 calm) :: repeat Ctl 8) boot = Some c /\
    _stream (view (mem c)) = None /\
    m_recording (mem c) = true /\
    exec [Fire [[5]] None; Cb; Cb; Cb; Cb] c = Some c' /\
    deref (m_heap (mem c')) (m_chunks (mem c')) = [[[5]]].
Proof.
  match eval vm_compute in
    (exec (Call (Start JNull 16000 1 calm) :: repeat Ctl 8) boot) with
  | Some ?c =>
      exists c;
      destruct (early_block_is_kept
                  (Call (Start JNull 16000 1 calm) :: repeat Ctl 8) c [[5]] None)
        as (Hflag & c' & Hrun & _ & Hbuf);
      [vm_compute; reflexivity | exact I | reflexivity |];
      exists c'
  end.
  split; [vm_compute; reflexivity |]. split; [reflexivity |].
  split; [exact Hflag |]. split; [exact Hrun |]. exact Hbuf.
Defined.

(** * The session on two threads, at concrete inputs *)

(** C1 as stated fails.  The driver delivers a block while the flag is set
    and the callback reads the flag; [stop] then runs to its return (ten
    statements: the buffer it took is empty); the callback then appends.
    One frame was delivered, [stop] returns 0 and no file is written. *)
Definition lost_schedule : list move :=
  start_schedule ++
  [Fire [[1]] None; Cb; Cb; Call (Stop "out.wav" calm)] ++ repeat Ctl 10 ++ [Cb; Cb].

Lemma lost_block_counterexample :
  exists c_mid c,
    exec (start_schedule ++ [Fire [[1]] None; Cb; Cb]) boot = Some c_mid /\
    m_recording (mem c_mid) = true /\
    audio_at c_mid = Some (L50 [[1]]) /\
    exec ([Call (Stop "out.wav" calm)] ++ repeat Ctl 10 ++ [Cb; Cb]) c_mid = Some c /\
    exec lost_schedule boot = Some c /\
    main_at c = Idle /\
    audio_at c = None /\
    total_frames (fired lost_schedule) = 1 /\
    last (outcomes c) = Some (Returned (Some 0)) /\
    (forall path rate pcm, ~ In (WriteWav path rate pcm) (trace c)) /\
    blocks_held c = 1%nat.
Proof.
  match eval vm_compute in
    (exec (start_schedule ++ [Fire [[1]] None; Cb; Cb]) boot) with
  | Some ?c_mid =>
      match eval vm_compute in (exec lost_schedule boot) with
      | Some ?c => exists c_mid, c
      end
  end.
  repeat split; try (vm_compute; reflexivity).
  intros path rate pcm Hin. vm_compute in Hin. intuition discriminate.
Qed.

(** C1, amended, at a concrete session: two blocks delivered to the end,
    then the [stop] line. *)
Lemma stop_counts_completed_deliveries_witness :
  exists c1 c2,
    exec (deliveries two_blocks) recording_config = Some c1 /\
    audio_at c1 = None /\
    step (Call (Stop "out.wav" calm)) c1 = Some c2 /\
    main_at (run_ctl 17 c2) = Idle /\
    last (outcomes (run_ctl 17 c2)) = Some (Returned (Some 3)) /\
    last (trace (run_ctl 17 c2)) = Some (WriteWav "out.wav" 16000 [[1]; [2]; [3]]) /\
    exists r3 ev,
      loop_body stop_line calm (view (mem c1)) = (r3, ev, Ok Next) /\
      responses ev =
        [JObj [("type", JStr "stopped"); ("id", JStr "1");
               ("wav_path", JStr "out.wav"); ("frames", JInt 3)]].
Proof.
  apply (stop_counts_completed_deliveries recording_config init JNull 16000 1 calm
           [OpenStream JNull 16000 1;
            StartStream {| st_device := JNull; st_samplerate := 16000; st_channels := 1 |}]
           two_blocks stop_line "out.wav"
           [("type", JStr "stop"); ("wav_path", JStr "out.wav"); ("id", JStr "1")]
           calm).
  - reflexivity.
  - reflexivity.
  - unfold chunks_bound. cbn. lia.
  - reflexivity.
  - discriminate.
  - vm_compute. discriminate.
  - reflexivity.
  - reflexivity.
  - reflexivity.
  - discriminate.
  - reflexivity.
  - reflexivity.
Defined.

(** * The conversion to 16-bit PCM (line 88)

    [audio_int16 = (audio * 32767).astype(np.int16)] on float32 samples.
    The multiplication is the one of IEEE binary32 (24 bits of precision,
    exponents below 128), as [SpecFloat] defines it; the cast is NumPy's. *)

(** The scalar 32767 as a float32: 16776704 * 2^-9. *)
Definition f32_32767 : spec_float := S754_finite false 16776704 (-9).

(** [x * 32767] on one float32 sample. *)
Definition scale (x : spec_float) : spec_float := SFmul 24 128 x f32_32767.

(** Modelled from the spec: the "wrap/overflow per integer truncation
    semantics" of the cast, the 16-bit two's complement integer congruent
    to [t] modulo 2^16. *)
Definition wrap16 (t : Z) : Z := (t + 32768) mod 65536 - 32768.

(** The saturating conversion, which [stop] does not apply. *)
Definition clamp16 (t : Z) : Z := Z.max (-32768) (Z.min 32767 t).

(** Modelled from the spec: [astype(np.int16)] is NumPy's and not in the
    repository.  The spec has each sample converted "to a signed 16-bit
    integer by scaling by 32767 and truncating", values out of range to
    "wrap/overflow per integer truncation semantics rather than being
    clamped": the fraction is dropped (rounding towards zero) and the
    integer is reduced to 16 bits.  The spec says nothing of NaN and of the
    infinities, which have no integer part: they are given 0 here and no
    theorem speaks of them. *)
Definition astype_int16 (y : spec_float) : Z :=
  match y with
  | S754_zero _ => 0
  | S754_finite s m e => wrap16 (trunc_finite s m e)
  | S754_infinity _ | S754_nan => 0
  end.

(** Line 88 on one sample. *)
Definition scale_cast (x : spec_float) : Z := astype_int16 (scale x).

(** The run time [rt] with float32 samples and line 88 as the conversion. *)
Definition with_numpy (rt : Runtime) : Runtime :=
  {| strip := @strip rt;
     json_loads := @json_loads rt;
     int_of_str := @int_of_str rt;
     int_error := @int_error rt;
     str_of := @str_of rt;
     repr := @repr rt;
     format_exc := @format_exc rt;
     sample := spec_float;
     to_int16 := scale_cast |}.

Lemma wrap16_range t : -32768 <= wrap16 t <= 32767.
Proof. unfold wrap16. pose proof (Z.mod_pos_bound (t + 32768) 65536). lia. Qed.

Lemma wrap16_congruent t : (wrap16 t - t) mod 65536 = 0.
Proof.
  unfold wrap16.
  replace ((t + 32768) mod 65536 - 32768 - t)
    with (- (65536 * ((t + 32768) / 65536))).
  - rewrite Z.mul_comm, <- Z.mul_opp_l. apply Z.mod_mul. lia.
  - pose proof (Z.div_mod (t + 32768) 65536). lia.
Qed.

Lemma wrap16_in_range t : -32768 <= t <= 32767 -> wrap16 t = t.
Proof. intros H. unfold wrap16. rewrite Z.mod_small by lia. lia. Qed.

Lemma wrap16_above t : 32767 < t < 98304 -> wrap16 t = t - 65536.
Proof.
  intros H. unfold wrap16.
  replace (t + 32768) with (t - 32768 + 1 * 65536) by lia.
  rewrite Z.mod_add by lia. rewrite Z.mod_small by lia. lia.
Qed.

Lemma wrap16_below t : -98305 < t < -32768 -> wrap16 t = t + 65536.
Proof.
  intros H. unfold wrap16.
  replace (t + 32768) with (t + 98304 + (-1) * 65536) by lia.
  rewrite Z.mod_add by lia. rewrite Z.mod_small by lia. lia.
Qed.


(** 1.5, 0.5, 1.0, the float32 next above 1.0, -1.5 and 2.0 as float32. *)
Definition f32_1_5 : spec_float := S754_finite false 12582912 (-23).
Definition f32_0_5 : spec_float := S754_finite false 8388608 (-24).
Definition f32_1_0 : spec_float := S754_finite false 8388608 (-23).
Definition f32_above_1 : spec_float := S754_finite false 8388609 (-23).
Definition f32_minus_1_5 : spec_float := S754_finite true 12582912 (-23).
Definition f32_2_0 : spec_float := S754_finite false 8388608 (-22).

(** A session of one block of one frame, the sample 1.5. *)
Definition loud_blocks : list (block (rt := with_numpy demo)) := [[[f32_1_5]]].
Definition loud : Recorder (rt := with_numpy demo) :=
  {| _recording := true; _stream := None; _chunks := loud_blocks;
     _sample_rate := Some 16000; _channels := Some 1 |}.


(** Line 88 on a few samples: in range the value is the truncated product,
    and just outside [-1, 1] it still is; beyond, it wraps. *)
Lemma scale_cast_examples :
  scale_cast f32_0_5 = 16383 /\
  scale_cast f32_1_0 = 32767 /\
  scale_cast f32_above_1 = 32767 /\
  scale_cast f32_1_5 = -16386 /\
  scale_cast f32_minus_1_5 = 16386 /\
  scale_cast f32_2_0 = -2.
Proof. vm_compute. repeat split. Qed.

